(** * ENS resolution and ownership layer of web3.py: a shallow embedding

    The development follows [ens/main.py] (class [ENS] and the module-level
    [_resolver_supports_interface]) and [web3/eth.py]
    ([Eth.wait_for_transaction_receipt]).

    - Python strings are [string]; [str.split] and [str.join] are written
      out so that [ENS.parent] can be embedded literally.
    - Dynamically typed values are [pyval].
    - A method that talks to the chain is a computation in the monad [M]:
      it reads the chain state, appends to the log of submitted
      transactions, and either returns or raises.
    - Everything the class receives from outside (RPC reads, transaction
      submission, hashing, name normalisation, address utilities of
      [eth_utils]) is a field of the record [Collab]. *)

From Stdlib Require Import String Ascii List Bool Arith ZArith Lia.
Import ListNotations.
Open Scope list_scope.
Open Scope string_scope.

(* ===================================================================== *)
(** * Python strings *)
(* ===================================================================== *)

Module PyStr.

(** [s.split(sep)] for a one-character separator: never an empty list,
    [''.split('.') = ['']]. *)
Fixpoint split (sep : ascii) (s : string) : list string :=
  match s with
  | EmptyString => [EmptyString]
  | String c s' =>
      if Ascii.eqb c sep then EmptyString :: split sep s'
      else match split sep s' with
           | l :: ls => String c l :: ls
           | [] => [String c EmptyString]
           end
  end.

(** [sep.join(l)]. *)
Fixpoint join (sep : string) (l : list string) : string :=
  match l with
  | [] => EmptyString
  | [x] => x
  | x :: rest => x ++ sep ++ join sep rest
  end.

(** [needle in hay] on strings: [needle] occurs as a substring. *)
Fixpoint contains (needle hay : string) : bool :=
  String.prefix needle hay ||
  match hay with
  | EmptyString => false
  | String _ hay' => contains needle hay'
  end.

Definition dot : ascii := "."%char.

(** The separator does not occur in [x]. *)
Definition dot_free (sep : ascii) (x : string) : Prop :=
  forall c, In c (list_ascii_of_string x) -> c <> sep.

End PyStr.

(* ===================================================================== *)
(** * [ENS.parent] *)
(* ===================================================================== *)

(** [ENS.parent(name)], a static method:
<<
    if not name:
        return ''
    labels = name.split('.')
    return '' if len(labels) == 1 else '.'.join(labels[1:])
>> *)
Definition parent (name : string) : string :=
  if String.eqb name "" then ""
  else
    let labels := PyStr.split PyStr.dot name in
    if Nat.eqb (List.length labels) 1 then "" else PyStr.join "." (tl labels).

(** The labels of a name, most specific first. *)
Definition labels_of (name : string) : list string := PyStr.split PyStr.dot name.

(* ===================================================================== *)
(** * Values, exceptions and the monad of chain computations *)
(* ===================================================================== *)

(** The dynamically typed values that flow through the class: [None],
    booleans, [str] (names, hex addresses, text records), [bytes]
    (hashes, call data, binary addresses) and tuples of decoded outputs. *)
#[warnings="-register-all"]
Inductive pyval : Type :=
| PNone
| PBool (b : bool)
| PStr (s : string)
| PBytes (b : string)
| PTuple (l : list pyval).

(** Python truthiness: the test behind [not x], [x or y], [if x]. *)
Definition truthy (v : pyval) : bool :=
  match v with
  | PNone => false
  | PBool b => b
  | PStr s => negb (String.eqb s "")
  | PBytes b => negb (String.eqb b "")
  | PTuple l => match l with [] => false | _ => true end
  end.

(** Python [==] on these values. *)
Fixpoint py_eqb (a b : pyval) : bool :=
  match a, b with
  | PNone, PNone => true
  | PBool x, PBool y => Bool.eqb x y
  | PStr s, PStr t => String.eqb s t
  | PBytes s, PBytes t => String.eqb s t
  | PTuple l, PTuple m =>
      (fix all2 (l m : list pyval) : bool :=
         match l, m with
         | [], [] => true
         | x :: l', y :: m' => py_eqb x y && all2 l' m'
         | _, _ => false
         end) l m
  | _, _ => false
  end.

(** The exceptions named in [ens.exceptions], [web3.exceptions] and
    [web3._utils.threads] ([Timeout]) and the built-in ones the class
    raises; [RpcError] stands for whatever a collaborator raises on its
    own (a reverted call, a transport error). *)
Inductive exn : Type :=
| InvalidName
| ResolverNotFound
| UnsupportedFunction
| UnauthorizedError
| UnownedName
| AddressMismatch
| ValueError
| TypeError
| TimeExhausted
| TransactionNotFound
| Timeout
| RpcError (what : string).

(** What running a piece of code gives: a value, a raised exception, or
    [OutOfFuel] when a bounded unrolling of a [while] loop was too short. *)
Inductive outcome (A : Type) : Type :=
| Ok (a : A)
| Raise (e : exn)
| OutOfFuel.
Arguments Ok {A} a.
Arguments Raise {A} e.
Arguments OutOfFuel {A}.

(** Contract objects: which ABI the object was built with, and the
    address it points at. *)
Inductive abi : Type :=
| ABI_ENS
| ABI_RESOLVER
| ABI_REVERSE_RESOLVER
| ABI_EXTENDED_RESOLVER
| ABI_REVERSE_REGISTRAR.

Record contract : Type := Contract { c_abi : abi; c_address : pyval }.

(** A transaction dict ([TxParams]); [deepcopy] of a value is the value. *)
Definition txparams : Type := list (string * pyval).

(** [d[k] = v] on a dict. *)
Fixpoint set_item (d : txparams) (k : string) (v : pyval) : txparams :=
  match d with
  | [] => [(k, v)]
  | (k', v') :: d' =>
      if String.eqb k' k then (k, v) :: d' else (k', v') :: set_item d' k v
  end.

(** One [contract.functions.f(args).transact(params)] submission. *)
Record sent_tx : Type := Sent {
  tx_to : contract;
  tx_fn : string;
  tx_args : list pyval;
  tx_params : txparams
}.

(** Modelled from the spec: [ens/constants.py] is not among the sources;
    [EMPTY_ADDR_HEX] is the zero address, twenty zero bytes in hex. *)
Definition EMPTY_ADDR_HEX : string := "0x0000000000000000000000000000000000000000".

(** Modelled from the spec: [ens/utils.py] is not among the sources;
    [is_none_or_zero_address] holds of a [None], empty or all-zero
    address ("a zero/empty address result is treated as not set"). *)
Definition is_none_or_zero_address (addr : pyval) : bool :=
  negb (truthy addr) || py_eqb addr (PStr EMPTY_ADDR_HEX).

(** Modelled from the spec: [ens/utils.py] is not among the sources;
    [is_empty_name] holds of the empty name, the root sentinel. *)
Definition is_empty_name (name : string) : bool := String.eqb name "".

(** The collaborators of the class: the chain behind the RPC client, the
    ABI codec, and the helpers of [ens.utils], [ens.abis],
    [ens.constants] and [eth_utils] that the sources import. *)
Record Collab : Type := {
  chain : Type;
  (* ens.utils *)
  normalize_name : string -> outcome string;
  raw_name_to_hash : string -> outcome string;
  normal_name_to_hash : string -> outcome string;
  label_to_hash : string -> outcome string;
  ens_encode_name : string -> outcome string;
  address_to_reverse_domain : pyval -> outcome string;
  address_in : pyval -> list pyval -> outcome bool;
  (* eth_utils *)
  to_checksum_address : pyval -> outcome string;
  is_address : pyval -> bool;
  is_binary_address : pyval -> bool;
  is_checksum_address : pyval -> bool;
  (* ens.constants *)
  EXTENDED_RESOLVER_INTERFACE_ID : string;
  GET_TEXT_INTERFACE_ID : string;
  (* ens.abis: repr of every function of an ABI, as all_functions() lists them *)
  all_functions : abi -> list string;
  (* the registry address given to the constructor *)
  ens_addr : pyval;
  (* web3: read calls, transactions, accounts, ABI codec *)
  eth_call : chain -> contract -> string -> list pyval -> outcome pyval;
  eth_transact :
    chain -> contract -> string -> list pyval -> txparams -> outcome pyval * chain;
  eth_accounts : chain -> outcome (list pyval);
  encodeABI : contract -> string -> list pyval -> outcome string;
  decode_abi : abi -> string -> pyval -> outcome (list pyval)
}.

Existing Class Collab.

Section Monad.
Context {C : Collab}.

(** The state a method runs in: the chain, and the transactions submitted
    so far, oldest first. *)
Record world : Type := World { w_chain : chain C; w_sent : list sent_tx }.

Definition M (A : Type) : Type := world -> outcome A * world.

Definition ret {A} (a : A) : M A := fun w => (Ok a, w).

Definition raise {A} (e : exn) : M A := fun w => (Raise e, w).

Definition bind {A B} (m : M A) (f : A -> M B) : M B :=
  fun w =>
    match m w with
    | (Ok a, w') => f a w'
    | (Raise e, w') => (Raise e, w')
    | (OutOfFuel, w') => (OutOfFuel, w')
    end.

(** A helper that needs no chain access. *)
Definition lift {A} (o : outcome A) : M A := fun w => (o, w).

(** [contract.caller.f(args)] and [contract.functions.f(args).call()]. *)
Definition call (c : contract) (fn : string) (args : list pyval) : M pyval :=
  fun w => (eth_call C (w_chain w) c fn args, w).

(** [contract.functions.f(args).transact(params)]: the submission is
    logged whether or not the client accepts it. *)
Definition transact (c : contract) (fn : string) (args : list pyval)
    (params : txparams) : M pyval :=
  fun w =>
    let (r, ch) := eth_transact C (w_chain w) c fn args params in
    (r, World ch (w_sent w ++ [Sent c fn args params])%list).

(** [self.w3.eth.accounts]. *)
Definition accounts : M (list pyval) :=
  fun w => (eth_accounts C (w_chain w), w).

End Monad.

Arguments world : clear implicits.
Arguments M : clear implicits.

Declare Scope ens_scope.
Delimit Scope ens_scope with ens.
Notation "x <- m ;; k" := (bind m (fun x => k))
  (at level 61, m at next level, right associativity) : ens_scope.
Notation "m ;;; k" := (bind m (fun _ => k))
  (at level 61, right associativity) : ens_scope.
Open Scope ens_scope.

(* ===================================================================== *)
(** * The class [ENS] *)
(* ===================================================================== *)

(** The [new_owner] and [address] parameters default to the sentinel
    [default], which is neither [None] nor an address. *)
Inductive arg : Type :=
| Default
| Given (v : pyval).

Section ENS.
Context {C : Collab}.

(** [self.ens], [self._resolver_contract(address=a)],
    [self._reverse_resolver_contract(address=a)]. *)
Definition ens : contract := Contract ABI_ENS (ens_addr C).
Definition _resolver_contract (a : pyval) : contract := Contract ABI_RESOLVER a.
Definition _reverse_resolver_contract (a : pyval) : contract :=
  Contract ABI_REVERSE_RESOLVER a.

(** [_resolver_supports_interface(resolver, interface_id)]:
<<
    if not any('supportsInterface' in repr(func) for func in resolver.all_functions()):
        return False
    return resolver.caller.supportsInterface(interface_id)
>> *)
Definition _resolver_supports_interface (resolver : contract)
    (interface_id : string) : M C pyval :=
  if negb (existsb (fun func => PyStr.contains "supportsInterface" func)
                   (all_functions C (c_abi resolver)))
  then ret (PBool false)
  else call resolver "supportsInterface" [PStr interface_id].

(** [ENS._type_aware_resolver(address, func)]. *)
Definition _type_aware_resolver (address : pyval) (func : string) : contract :=
  if String.eqb func "name" then _reverse_resolver_contract address
  else _resolver_contract address.

(** The [while True] loop of [ENS._get_resolver], unrolled [fuel] times:
<<
    while True:
        if is_empty_name(current_name):
            return None, current_name
        resolver_addr = self.ens.caller.resolver(normal_name_to_hash(current_name))
        if not is_none_or_zero_address(resolver_addr):
            return self._type_aware_resolver(resolver_addr, fn_name), current_name
        current_name = self.parent(current_name)
>> *)
Fixpoint _get_resolver_loop (fuel : nat) (current_name fn_name : string)
    : M C (option contract * string) :=
  match fuel with
  | O => fun w => (OutOfFuel, w)
  | S fuel' =>
      if is_empty_name current_name then ret (None, current_name)
      else
        node <- lift (normal_name_to_hash C current_name) ;;
        resolver_addr <- call ens "resolver" [PBytes node] ;;
        if negb (is_none_or_zero_address resolver_addr)
        then ret (Some (_type_aware_resolver resolver_addr fn_name), current_name)
        else _get_resolver_loop fuel' (parent current_name) fn_name
  end.

(** [ENS._get_resolver(normal_name, fn_name)]: each turn of the loop
    shortens the candidate, so one turn per character and one more are
    enough (see [_get_resolver_loop_fuel]). *)
Definition _get_resolver (normal_name fn_name : string)
    : M C (option contract * string) :=
  _get_resolver_loop (S (String.length normal_name)) normal_name fn_name.

(** [ENS.resolver(name)]. *)
Definition resolver (name : string) : M C (option contract) :=
  normal_name <- lift (normalize_name C name) ;;
  r <- _get_resolver normal_name "addr" ;;
  ret (fst r).

(** [ENS.owner(name)]. *)
Definition owner (name : string) : M C pyval :=
  node <- lift (raw_name_to_hash C name) ;;
  call ens "owner" [PBytes node].

(** [ENS._decode_ensip10_resolve_data]: the function's output types are
    looked up in the ABI and the bytes decoded by the codec;
<<
    return decoded[0] if len(decoded) == 1 else decoded
>> *)
Definition _decode_ensip10_resolve_data (contract_call_result : pyval)
    (extended_resolver : contract) (fn_name : string) : M C pyval :=
  decoded <- lift (decode_abi C (c_abi extended_resolver) fn_name contract_call_result) ;;
  ret (match decoded with [v] => v | _ => PTuple decoded end).

(** [to_checksum_address(result) if is_address(result) else result]. *)
Definition checksum_if_address (result : pyval) : M C pyval :=
  if is_address C result
  then cs <- lift (to_checksum_address C result) ;; ret (PStr cs)
  else ret result.

(** [ENS._resolve(name, fn_name)]. *)
Definition _resolve (name fn_name : string) : M C pyval :=
  normal_name <- lift (normalize_name C name) ;;
  r <- _get_resolver normal_name fn_name ;;
  match fst r with
  | None => ret PNone
  | Some resolver =>
      let current_name := snd r in
      node <- lift (raw_name_to_hash C normal_name) ;;
      ext <- _resolver_supports_interface resolver (EXTENDED_RESOLVER_INTERFACE_ID C) ;;
      if truthy ext then
        let extended_resolver := Contract ABI_EXTENDED_RESOLVER (c_address resolver) in
        calldata <- lift (encodeABI C extended_resolver fn_name [PBytes node]) ;;
        wire <- lift (ens_encode_name C normal_name) ;;
        contract_call_result <-
          call extended_resolver "resolve" [PBytes wire; PBytes calldata] ;;
        result <- _decode_ensip10_resolve_data contract_call_result
                    extended_resolver fn_name ;;
        checksum_if_address result
      else if String.eqb normal_name current_name then
        result <- call resolver fn_name [PBytes node] ;;
        if is_none_or_zero_address result then ret PNone
        else checksum_if_address result
      else ret PNone
  end.

(** [ENS.address(name)]. *)
Definition address (name : string) : M C pyval := _resolve name "addr".

(** [self.address(name)] inside [ENS.name], where [name] is whatever
    [_resolve] returned. A [str] is resolved as usual. Modelled from the
    spec for [None]: a name that is absent has no resolver anywhere, and
    resolution without a resolver returns [None]. Any other value is not
    a name. *)
Definition address_of_result (name : pyval) : M C pyval :=
  match name with
  | PStr s => address s
  | PNone => ret PNone
  | _ => raise TypeError
  end.

(** [ENS.name(address)]:
<<
    reversed_domain = address_to_reverse_domain(address)
    name = self._resolve(reversed_domain, fn_name='name')
    return name if to_checksum_address(address) == self.address(name) else None
>> *)
Definition name (addr : pyval) : M C pyval :=
  reversed_domain <- lift (address_to_reverse_domain C addr) ;;
  nm <- _resolve reversed_domain "name" ;;
  cs <- lift (to_checksum_address C addr) ;;
  fwd <- address_of_result nm ;;
  ret (if py_eqb (PStr cs) fwd then nm else PNone).

(** [ENS.get_text(name, key)]. *)
Definition get_text (name key : string) : M C pyval :=
  node <- lift (raw_name_to_hash C name) ;;
  normal_name <- lift (normalize_name C name) ;;
  r <- resolver normal_name ;;
  match r with
  | Some r =>
      sup <- _resolver_supports_interface r (GET_TEXT_INTERFACE_ID C) ;;
      if truthy sup then call r "text" [PBytes node; PStr key]
      else raise UnsupportedFunction
  | None => raise ResolverNotFound
  end.

(** [ENS._assert_control(account, name, parent_owned)]; the names only
    feed the error message. *)
Definition _assert_control (account : pyval) : M C unit :=
  accts <- accounts ;;
  known <- lift (address_in C account accts) ;;
  if negb known then raise UnauthorizedError else ret tt.

(** The loop of [ENS._first_owner], by recursion on [pieces]:
<<
    while pieces and is_none_or_zero_address(owner):
        name = '.'.join(pieces)
        owner = self.owner(name)
        if is_none_or_zero_address(owner):
            unowned.append(pieces.pop(0))
>>
    When the owner just read is set, [pieces] is left as it is and the
    loop test fails on its next evaluation. *)
Fixpoint _first_owner_loop (pieces : list string) (owner_ : pyval)
    (unowned : list string) (name : string)
    : M C (pyval * list string * string) :=
  match pieces with
  | [] => ret (owner_, unowned, name)
  | piece :: rest =>
      if negb (is_none_or_zero_address owner_) then ret (owner_, unowned, name)
      else
        let name := PyStr.join "." pieces in
        owner_ <- owner name ;;
        if is_none_or_zero_address owner_
        then _first_owner_loop rest owner_ (unowned ++ [piece])%list name
        else ret (owner_, unowned, name)
  end.

(** [ENS._first_owner(name)]: [(owner or None, unowned labels, first
    owned domain)]. *)
Definition _first_owner (name : string) : M C (pyval * list string * string) :=
  normal <- lift (normalize_name C name) ;;
  _first_owner_loop (PyStr.split PyStr.dot normal) PNone [] name.

(** The [for label in reversed(unowned)] loop of [_claim_ownership]. *)
Fixpoint _claim_loop (owner_ : pyval) (labels : list string) (owned : string)
    (params : txparams) : M C unit :=
  match labels with
  | [] => ret tt
  | label :: rest =>
      node <- lift (raw_name_to_hash C owned) ;;
      lh <- lift (label_to_hash C label) ;;
      transact ens "setSubnodeOwner" [PBytes node; PBytes lh; owner_] params ;;;
      _claim_loop owner_ rest (label ++ "." ++ owned) params
  end.

(** [ENS._claim_ownership(owner, unowned, owned, old_owner, transact)]. *)
Definition _claim_ownership (owner_ : pyval) (unowned : list string)
    (owned : string) (old_owner : pyval) (params : txparams) : M C unit :=
  let params := set_item params "from" (if truthy old_owner then old_owner else owner_) in
  _claim_loop owner_ (rev unowned) owned params.

(** [ENS.setup_owner(name, new_owner, transact)]. *)
Definition setup_owner (name : string) (new_owner : arg) (params : txparams)
    : M C pyval :=
  fo <- _first_owner name ;;
  let '(super_owner, unowned, owned) := fo in
  new_owner <- match new_owner with
               | Default => ret super_owner
               | Given v =>
                   if negb (truthy v) then ret (PStr EMPTY_ADDR_HEX)
                   else cs <- lift (to_checksum_address C v) ;; ret (PStr cs)
               end ;;
  current_owner <- owner name ;;
  if py_eqb new_owner (PStr EMPTY_ADDR_HEX) && negb (truthy current_owner)
  then ret PNone
  else if py_eqb current_owner new_owner then ret current_owner
  else
    _assert_control super_owner ;;;
    _claim_ownership new_owner unowned owned super_owner params ;;;
    ret new_owner.

(** [ENS._set_resolver(name, resolver_addr, transact)]. *)
Definition _set_resolver (name : string) (resolver_addr : pyval)
    (params : txparams) : M C contract :=
  resolver_addr <- (if is_none_or_zero_address resolver_addr
                    then address "resolver.eth" else ret resolver_addr) ;;
  namehash <- lift (raw_name_to_hash C name) ;;
  current <- call ens "resolver" [PBytes namehash] ;;
  (if negb (py_eqb current resolver_addr)
   then transact ens "setResolver" [PBytes namehash; resolver_addr] params ;;; ret tt
   else ret tt) ;;;
  ret (_resolver_contract resolver_addr).

(** The address normalisation in the middle of [ENS.setup_address]:
<<
    if is_none_or_zero_address(address):
        address = None
    elif address is default:
        address = owner
    elif is_binary_address(address):
        address = to_checksum_address(cast(str, address))
    elif not is_checksum_address(address):
        raise ValueError("You must supply the address in checksum format")
>> *)
Definition target_address (addr : arg) (owner_ : pyval) : M C pyval :=
  match addr with
  | Default => ret owner_
  | Given a =>
      if is_none_or_zero_address a then ret PNone
      else if is_binary_address C a
      then cs <- lift (to_checksum_address C a) ;; ret (PStr cs)
      else if negb (is_checksum_address C a) then raise ValueError
      else ret a
  end.

(** [ENS.setup_address(name, address, transact)]. *)
Definition setup_address (name : string) (addr : arg) (params : txparams)
    : M C pyval :=
  owner_ <- setup_owner name Default params ;;
  _assert_control owner_ ;;;
  addr <- target_address addr owner_ ;;
  current <- address name ;;
  if py_eqb current addr then ret PNone
  else
    let addr := match addr with PNone => PStr EMPTY_ADDR_HEX | _ => addr end in
    let params := set_item params "from" owner_ in
    resolver <- _set_resolver name PNone params ;;
    node <- lift (raw_name_to_hash C name) ;;
    transact resolver "setAddr" [PBytes node; addr] params.

End ENS.

(* ===================================================================== *)
(** * [Eth.wait_for_transaction_receipt] *)
(* ===================================================================== *)

Module Receipt.
Section Wait.

Local Open Scope Z_scope.

(** Time is a count of clock ticks. The node's answer to a receipt fetch
    for the transaction hash at hand depends on when it is asked;
    a fetch takes [rpc_time] ticks. *)
Variable receipt : Type.
Variable _get_transaction_receipt : Z -> outcome (option receipt).
Variable rpc_time : Z.

(** Modelled from the spec: [web3/_utils/threads.py] is not among the
    sources. [Timeout(seconds)] entered by [with] notes when it began;
    its [sleep(d)] sleeps [d] and then raises the [Timeout] itself once
    the clock is past [begun_at + seconds]. *)
Record timeout_ : Type := MkTimeout { seconds : Z; begun_at : Z }.

Definition expired (t : timeout_) (now : Z) : bool := now >? begun_at t + seconds t.

Definition timeout_sleep (t : timeout_) (d : Z) (now : Z) : outcome unit * Z :=
  let now := now + d in
  (if expired t now then Raise Timeout else Ok tt, now).

(** The receipt fetch with its handler:
<<
    try:
        tx_receipt = self._get_transaction_receipt(transaction_hash)
    except TransactionNotFound:
        tx_receipt = None
>> *)
Definition fetch_receipt (now : Z) : outcome (option receipt) :=
  match _get_transaction_receipt now with
  | Raise TransactionNotFound => Ok None
  | r => r
  end.

(** The [while True] loop under [with Timeout(timeout) as _timeout],
    unrolled [fuel] times:
<<
    while True:
        (fetch, as above)
        if tx_receipt is not None:
            break
        _timeout.sleep(poll_latency)
>> *)
Fixpoint poll_loop (fuel : nat) (t : timeout_) (poll_latency : Z) (now : Z)
    : outcome receipt * Z :=
  match fuel with
  | O => (OutOfFuel, now)
  | S fuel' =>
      let tx_receipt := fetch_receipt now in
      let now := now + rpc_time in
      match tx_receipt with
      | Ok (Some r) => (Ok r, now)
      | Ok None =>
          match timeout_sleep t poll_latency now with
          | (Ok _, now) => poll_loop fuel' t poll_latency now
          | (Raise e, now) => (Raise e, now)
          | (OutOfFuel, now) => (OutOfFuel, now)
          end
      | Raise e => (Raise e, now)
      | OutOfFuel => (OutOfFuel, now)
      end
  end.

(** [Eth.wait_for_transaction_receipt(transaction_hash, timeout,
    poll_latency)], started at time [now]; the outer handler turns the
    [Timeout] into [TimeExhausted]. *)
Definition wait_for_transaction_receipt (fuel : nat) (timeout poll_latency : Z)
    (now : Z) : outcome receipt * Z :=
  match poll_loop fuel (MkTimeout timeout now) poll_latency now with
  | (Raise Timeout, now') => (Raise TimeExhausted, now')
  | r => r
  end.

(** The time at which the [k]-th fetch (counting from 0) is issued, and
    what it gives. *)
Definition poll_time (poll_latency now : Z) (k : nat) : Z :=
  now + Z.of_nat k * (rpc_time + poll_latency).

Definition not_yet_mined (o : outcome (option receipt)) : Prop :=
  o = Ok None \/ o = Raise TransactionNotFound.

(** What the loop gives when its [k]-th fetch is the one that ends it. *)
Definition ends_with (timeout poll_latency : Z) (k : nat)
    (answer : outcome (option receipt)) (result : outcome receipt) : Prop :=
  match answer with
  | Ok (Some r) => result = Ok r
  | Ok None | Raise TransactionNotFound =>
      result = Raise Timeout /\
      timeout < (Z.of_nat k + 1) * (rpc_time + poll_latency)
  | Raise e => result = Raise e
  | OutOfFuel => result = OutOfFuel
  end.

End Wait.

(** Two nodes to run the wait against: one that has the receipt [r] from
    time [t0] on and does not know the transaction before, one that never
    knows it. *)
Definition mined_at (t0 : Z) (r : nat) (t : Z) : outcome (option nat) :=
  if (t <? t0)%Z then Raise TransactionNotFound else Ok (Some r).

Definition never_mined (t : Z) : outcome (option nat) := Raise TransactionNotFound.

End Receipt.

(* ===================================================================== *)
(** * A small test chain *)
(* ===================================================================== *)

(** A concrete set of collaborators on which the methods can be run: a
    registry and resolvers kept as association lists, hashes that keep
    the name readable, addresses that are already in checksum form. *)
Module TestChain.

Record state : Type := State {
  st_owner : list (string * pyval);                 (* node -> owner *)
  st_resolver : list (string * pyval);              (* node -> resolver *)
  st_addr : list (string * string * pyval);         (* resolver, node -> addr *)
  st_name : list (string * string * pyval);         (* resolver, node -> name *)
  st_text : list (string * string * string * pyval);(* resolver, node, key *)
  st_supports : list (string * string);             (* resolver, interface id *)
  st_reverting : list string;                       (* supportsInterface reverts *)
  st_accounts : list pyval
}.

Definition zero : pyval := PStr EMPTY_ADDR_HEX.

Fixpoint lookup {A} (k : string) (l : list (string * A)) (d : A) : A :=
  match l with
  | [] => d
  | (k', v) :: l' => if String.eqb k' k then v else lookup k l' d
  end.

Definition key2 (a b : string) : string := a ++ "/" ++ b.
Definition rows2 {A} (l : list (string * string * A)) : list (string * A) :=
  map (fun r => (key2 (fst (fst r)) (snd (fst r)), snd r)) l.
Definition rows3 {A} (l : list (string * string * string * A)) : list (string * A) :=
  map (fun r => (key2 (key2 (fst (fst (fst r))) (snd (fst (fst r)))) (snd (fst r)), snd r)) l.

Definition subnode (node label : string) : string :=
  if String.eqb node "" then label else label ++ "." ++ node.

Definition str_of (v : pyval) : string :=
  match v with PStr s => s | PBytes s => s | _ => "" end.

Definition t_call (st : state) (c : contract) (fn : string) (args : list pyval)
    : outcome pyval :=
  let a := str_of (c_address c) in
  match c_abi c, args with
  | ABI_ENS, [PBytes n] =>
      if String.eqb fn "owner" then Ok (lookup n (st_owner st) zero)
      else if String.eqb fn "resolver" then Ok (lookup n (st_resolver st) zero)
      else Raise (RpcError "no such function")
  | (ABI_RESOLVER | ABI_REVERSE_RESOLVER | ABI_EXTENDED_RESOLVER), [PStr iid] =>
      if negb (String.eqb fn "supportsInterface") then Raise (RpcError "no such function")
      else if existsb (String.eqb a) (st_reverting st) then Raise (RpcError "execution reverted")
      else Ok (PBool (existsb (fun p => String.eqb (fst p) a && String.eqb (snd p) iid)
                              (st_supports st)))
  | (ABI_RESOLVER | ABI_REVERSE_RESOLVER), [PBytes n] =>
      if String.eqb fn "addr" then Ok (lookup (key2 a n) (rows2 (st_addr st)) zero)
      else if String.eqb fn "name" then Ok (lookup (key2 a n) (rows2 (st_name st)) (PStr ""))
      else Raise (RpcError "no such function")
  | ABI_RESOLVER, [PBytes n; PStr k] =>
      if String.eqb fn "text"
      then Ok (lookup (key2 (key2 a n) k) (rows3 (st_text st)) (PStr ""))
      else Raise (RpcError "no such function")
  | _, _ => Raise (RpcError "no such function")
  end.

Definition t_transact (st : state) (c : contract) (fn : string)
    (args : list pyval) (params : txparams) : outcome pyval * state :=
  let a := str_of (c_address c) in
  match c_abi c, args with
  | ABI_ENS, [PBytes n; PBytes l; o] =>
      if String.eqb fn "setSubnodeOwner"
      then (Ok (PBytes "0xtx"),
            State ((subnode n l, o) :: st_owner st) (st_resolver st) (st_addr st)
                  (st_name st) (st_text st) (st_supports st) (st_reverting st)
                  (st_accounts st))
      else (Raise (RpcError "no such function"), st)
  | ABI_ENS, [PBytes n; r] =>
      if String.eqb fn "setResolver"
      then (Ok (PBytes "0xtx"),
            State (st_owner st) ((n, r) :: st_resolver st) (st_addr st)
                  (st_name st) (st_text st) (st_supports st) (st_reverting st)
                  (st_accounts st))
      else (Raise (RpcError "no such function"), st)
  | ABI_RESOLVER, [PBytes n; v] =>
      if String.eqb fn "setAddr"
      then (Ok (PBytes "0xtx"),
            State (st_owner st) (st_resolver st) ((a, n, v) :: st_addr st)
                  (st_name st) (st_text st) (st_supports st) (st_reverting st)
                  (st_accounts st))
      else (Raise (RpcError "no such function"), st)
  | _, _ => (Raise (RpcError "no such function"), st)
  end.

Definition t_is_address (v : pyval) : bool :=
  match v with
  | PStr s => String.prefix "0x" s && Nat.eqb (String.length s) 42
  | _ => false
  end.

Definition t_checksum (v : pyval) : outcome string :=
  match v with
  | PStr s => if t_is_address v then Ok s else Raise ValueError
  | _ => Raise ValueError
  end.

Definition t_functions (a : abi) : list string :=
  match a with
  | ABI_ENS =>
      ["<Function owner(bytes32)>"; "<Function resolver(bytes32)>";
       "<Function setOwner(bytes32,address)>"; "<Function setResolver(bytes32,address)>";
       "<Function setSubnodeOwner(bytes32,bytes32,address)>"]
  | ABI_RESOLVER =>
      ["<Function addr(bytes32)>"; "<Function name(bytes32)>";
       "<Function setAddr(bytes32,address)>"; "<Function setText(bytes32,string,string)>";
       "<Function supportsInterface(bytes4)>"; "<Function text(bytes32,string)>"]
  | ABI_REVERSE_RESOLVER => ["<Function name(bytes32)>"]
  | ABI_EXTENDED_RESOLVER =>
      ["<Function resolve(bytes,bytes)>"; "<Function supportsInterface(bytes4)>"]
  | ABI_REVERSE_REGISTRAR => ["<Function setName(string)>"]
  end.

Definition collab : Collab := {|
  chain := state;
  normalize_name := fun s => Ok s;
  raw_name_to_hash := fun s => Ok s;
  normal_name_to_hash := fun s => Ok s;
  label_to_hash := fun s => Ok s;
  ens_encode_name := fun s => Ok s;
  address_to_reverse_domain := fun v =>
    match v with
    | PStr s => Ok (String.substring 2 (String.length s - 2) s ++ ".addr.reverse")
    | _ => Raise ValueError
    end;
  address_in := fun a l => Ok (existsb (py_eqb a) l);
  to_checksum_address := t_checksum;
  is_address := t_is_address;
  is_binary_address := fun v => match v with PBytes _ => true | _ => false end;
  is_checksum_address := t_is_address;
  EXTENDED_RESOLVER_INTERFACE_ID := "0x9061b923";
  GET_TEXT_INTERFACE_ID := "0x59d1d43c";
  all_functions := t_functions;
  ens_addr := PStr "0x00000000000C2E074eC69A0dFb2997BA6C7d2e1e";
  eth_call := t_call;
  eth_transact := t_transact;
  eth_accounts := fun st => Ok (st_accounts st);
  encodeABI := fun _ fn _ => Ok fn;
  decode_abi := fun _ _ v => Ok [v]
|}.

Definition w0 (st : state) : world collab := World (C := collab) st [].

(** Three accounts and two resolvers. *)
Definition alice : pyval := PStr "0xA11ce00000000000000000000000000000000001".
Definition bob : pyval := PStr "0xB0b0000000000000000000000000000000000002".
Definition public_resolver : string := "0x4976fb03C32e5B8cfe2b6cCB31c09Ba78EBaBa41".
Definition old_resolver : string := "0x1da022710dF5002339274AaDEe8D58218e9D6AB5".
Definition broken_resolver : string := "0xBadBadBadBadBadBadBadBadBadBadBadBadBad0".

(** [c.eth] is owned by alice, [resolver.eth] points at the public
    resolver, [wallet.eth] uses the public resolver (with text records),
    [legacy.eth] a resolver without text records, [broken.eth] one whose
    [supportsInterface] reverts; alice has a reverse record. *)
Definition genesis : state := {|
  st_owner := [("c.eth", alice); ("eth", alice); ("wallet.eth", alice)];
  st_resolver :=
    [("resolver.eth", PStr public_resolver); ("wallet.eth", PStr public_resolver);
     ("legacy.eth", PStr old_resolver); ("broken.eth", PStr broken_resolver);
     ("A11ce00000000000000000000000000000000001.addr.reverse", PStr public_resolver);
     ("B0b0000000000000000000000000000000000002.addr.reverse", PStr public_resolver)];
  st_addr :=
    [(public_resolver, "resolver.eth", PStr public_resolver);
     (public_resolver, "wallet.eth", alice)];
  st_name :=
    [(public_resolver, "A11ce00000000000000000000000000000000001.addr.reverse",
      PStr "wallet.eth");
     (public_resolver, "B0b0000000000000000000000000000000000002.addr.reverse",
      PStr "wallet.eth")];
  st_text := [(public_resolver, "wallet.eth", "url", PStr "https://example.org")];
  st_supports := [(public_resolver, "0x59d1d43c")];
  st_reverting := [broken_resolver];
  st_accounts := [alice]
|}.

End TestChain.

(* ===================================================================== *)
(** * The class [ENS]: reverse records and text records *)
(* ===================================================================== *)

(** [toolz.merge(d1, d2)]: the entries of [d2] are written over [d1]. *)
Definition merge (d1 d2 : txparams) : txparams :=
  fold_left (fun d kv => set_item d (fst kv) (snd kv)) d2 d1.

(** [d.get(k)] on a transaction dict, and [k in d]. *)
Fixpoint get_item (d : txparams) (k : string) : option pyval :=
  match d with
  | [] => None
  | (k', v) :: d' => if String.eqb k' k then Some v else get_item d' k
  end.

Definition has_key (d : txparams) (k : string) : bool :=
  match get_item d k with Some _ => true | None => false end.

Section ENSReverse.
Context {C : Collab}.

(** [ens.constants.REVERSE_REGISTRAR_DOMAIN], not among the sources. *)
Variable REVERSE_REGISTRAR_DOMAIN : string.

(** [ENS.reverser(target_address)]. *)
Definition reverser (target_address : pyval) : M C (option contract) :=
  reversed_domain <- lift (address_to_reverse_domain C target_address) ;;
  resolver reversed_domain.

(** [ENS._reverse_registrar()]:
<<
    addr = self.ens.caller.owner(normal_name_to_hash(REVERSE_REGISTRAR_DOMAIN))
    return self.w3.eth.contract(address=addr, abi=abis.REVERSE_REGISTRAR)
>> *)
Definition _reverse_registrar : M C contract :=
  node <- lift (normal_name_to_hash C REVERSE_REGISTRAR_DOMAIN) ;;
  addr <- call ens "owner" [PBytes node] ;;
  ret (Contract ABI_REVERSE_REGISTRAR addr).

(** [ENS._setup_reverse(name, address, transact)]; [name] is a [str] or
    [None]:
<<
    name = normalize_name(name) if name else ''
    transact['from'] = address
    return self._reverse_registrar().functions.setName(name).transact(transact)
>> *)
Definition _setup_reverse (name : option string) (addr : pyval)
    (params : txparams) : M C pyval :=
  name <- match name with
          | Some n => if String.eqb n "" then ret "" else lift (normalize_name C n)
          | None => ret ""
          end ;;
  let params := set_item params "from" addr in
  registrar <- _reverse_registrar ;;
  transact registrar "setName" [PStr name] params.

(** [ENS.setup_name(name, address, transact)]. *)
Definition setup_name (name : string) (addr : pyval) (params : txparams)
    : M C pyval :=
  if String.eqb name "" then
    _assert_control addr ;;;
    _setup_reverse None addr params
  else
    resolved <- address name ;;
    addr <- (if is_none_or_zero_address addr then ret resolved
             else if truthy resolved && negb (py_eqb addr resolved)
                     && negb (py_eqb resolved (PStr EMPTY_ADDR_HEX))
             then raise AddressMismatch
             else ret addr) ;;
    addr <- (if is_none_or_zero_address addr then owner name else ret addr) ;;
    (if is_none_or_zero_address addr then raise UnownedName else ret tt) ;;;
    addr <- (if is_binary_address C addr
             then cs <- lift (to_checksum_address C addr) ;; ret (PStr cs)
             else ret addr) ;;
    (if negb (is_checksum_address C addr) then raise ValueError else ret tt) ;;;
    _assert_control addr ;;;
    (if negb (truthy resolved)
     then setup_address name (Given addr) params ;;; ret tt
     else ret tt) ;;;
    _setup_reverse (Some name) addr params.

(** [ENS.set_text(name, key, value, transact)]. *)
Definition set_text (name key value : string) (params : txparams) : M C pyval :=
  owner_ <- owner name ;;
  node <- lift (raw_name_to_hash C name) ;;
  normal_name <- lift (normalize_name C name) ;;
  let transaction_dict := merge [("from", owner_)] params in
  r <- resolver normal_name ;;
  match r with
  | Some r =>
      sup <- _resolver_supports_interface r (GET_TEXT_INTERFACE_ID C) ;;
      if truthy sup
      then transact r "setText" [PBytes node; PStr key; PStr value] transaction_dict
      else raise UnsupportedFunction
  | None => raise ResolverNotFound
  end.

End ENSReverse.

(* ===================================================================== *)
(** * [BaseEth] and [Eth]: the argument mungers *)
(* ===================================================================== *)

Module EthModule.

(** What a munger hands to the RPC method: transaction dicts, block
    identifiers, state overrides. *)
Inductive rpc_param (B O : Type) : Type :=
| ParamTx (t : txparams)
| ParamBlock (b : B)
| ParamOverride (o : O).
Arguments ParamTx {B O} t.
Arguments ParamBlock {B O} b.
Arguments ParamOverride {B O} o.



Section Mungers.
Context {C : Collab}.

(** Block identifiers and call overrides are passed through untouched. *)
Variable B : Type.
Variable O : Type.

(** The module object: [_default_account] is a checksum address or the
    sentinel [empty] (here [None]); [_default_block] is ["latest"] until
    set. *)
Record eth : Type := Eth {
  default_account : option pyval;
  default_block : B
}.

(** [is_checksum_address(self.default_account)]; the sentinel [empty] is
    not text and so not a checksum address. *)
Definition has_default_account (self : eth) : bool :=
  match default_account self with
  | Some a => is_checksum_address C a
  | None => false
  end.

(** The first statement of the three transaction mungers:
<<
    if 'from' not in transaction and is_checksum_address(self.default_account):
        transaction = assoc(transaction, 'from', self.default_account)
>> *)
Definition with_default_from (self : eth) (transaction : txparams) : txparams :=
  if negb (has_key transaction "from") && has_default_account self
  then match default_account self with
       | Some a => set_item transaction "from" a
       | None => transaction
       end
  else transaction.

(** [BaseEth.send_transaction_munger(transaction)]. *)
Definition send_transaction_munger (self : eth) (transaction : txparams)
    : list (rpc_param B O) :=
  [ParamTx (with_default_from self transaction)].

(** [BaseEth.estimate_gas_munger(transaction, block_identifier)]. *)
Definition estimate_gas_munger (self : eth) (transaction : txparams)
    (block_identifier : option B) : list (rpc_param B O) :=
  let transaction := with_default_from self transaction in
  match block_identifier with
  | None => [ParamTx transaction]
  | Some b => [ParamTx transaction; ParamBlock b]
  end.

(** [BaseEth.call_munger(transaction, block_identifier, state_override)]. *)
Definition call_munger (self : eth) (transaction : txparams)
    (block_identifier : option B) (state_override : option O)
    : list (rpc_param B O) :=
  let transaction := with_default_from self transaction in
  let block_identifier :=
    match block_identifier with None => default_block self | Some b => b end in
  match state_override with
  | None => [ParamTx transaction; ParamBlock block_identifier]
  | Some o => [ParamTx transaction; ParamBlock block_identifier; ParamOverride o]
  end.

End Mungers.


End EthModule.

(* ===================================================================== *)
(** * The test chain with a reverse registrar *)
(* ===================================================================== *)

(** The test chain again, with a reverse registrar that owns
    [addr.reverse] and accepts [setName], and resolvers that accept
    [setText]. *)
Module TestChain2.
Import TestChain.

Definition REVERSE_REGISTRAR_DOMAIN : string := "addr.reverse".
Definition reverse_registrar : string := "0x084b1c3C81545d370f3634392De611CaaBFf8148".

Definition reverse_node (params : txparams) : string :=
  match get_item params "from" with
  | Some (PStr a) => String.substring 2 (String.length a - 2) a ++ ".addr.reverse"
  | _ => ""
  end.

Definition t_transact2 (st : state) (c : contract) (fn : string)
    (args : list pyval) (params : txparams) : outcome pyval * state :=
  match c_abi c, args with
  | ABI_REVERSE_REGISTRAR, [PStr n] =>
      if String.eqb fn "setName"
      then (Ok (PBytes "0xtx"),
            State (st_owner st) (st_resolver st) (st_addr st)
                  ((public_resolver, reverse_node params, PStr n) :: st_name st)
                  (st_text st) (st_supports st) (st_reverting st) (st_accounts st))
      else (Raise (RpcError "no such function"), st)
  | ABI_RESOLVER, [PBytes n; PStr k; v] =>
      if String.eqb fn "setText"
      then (Ok (PBytes "0xtx"),
            State (st_owner st) (st_resolver st) (st_addr st) (st_name st)
                  ((str_of (c_address c), n, k, v) :: st_text st)
                  (st_supports st) (st_reverting st) (st_accounts st))
      else (Raise (RpcError "no such function"), st)
  | _, _ => t_transact st c fn args params
  end.

(** A resolver that supports the extended interface answers
    [resolve(name, data)] for every name with the record it keeps under
    ["*"]. *)
Definition t_call2 (st : state) (c : contract) (fn : string) (args : list pyval)
    : outcome pyval :=
  match c_abi c, args with
  | ABI_EXTENDED_RESOLVER, [PBytes wire; PBytes calldata] =>
      if String.eqb fn "resolve"
      then Ok (lookup (key2 (str_of (c_address c)) "*") (rows2 (st_addr st)) zero)
      else Raise (RpcError "no such function")
  | _, _ => t_call st c fn args
  end.

Definition collab2 : Collab := {|
  chain := state;
  normalize_name := normalize_name collab;
  raw_name_to_hash := raw_name_to_hash collab;
  normal_name_to_hash := normal_name_to_hash collab;
  label_to_hash := label_to_hash collab;
  ens_encode_name := ens_encode_name collab;
  address_to_reverse_domain := address_to_reverse_domain collab;
  address_in := address_in collab;
  to_checksum_address := to_checksum_address collab;
  is_address := is_address collab;
  is_binary_address := is_binary_address collab;
  is_checksum_address := is_checksum_address collab;
  EXTENDED_RESOLVER_INTERFACE_ID := EXTENDED_RESOLVER_INTERFACE_ID collab;
  GET_TEXT_INTERFACE_ID := GET_TEXT_INTERFACE_ID collab;
  all_functions := all_functions collab;
  ens_addr := ens_addr collab;
  eth_call := t_call2;
  eth_transact := t_transact2;
  eth_accounts := fun st => Ok (st_accounts st);
  encodeABI := encodeABI collab;
  decode_abi := decode_abi collab
|}.

Definition w0 (st : state) : world collab2 := World (C := collab2) st [].

(** The genesis state with the reverse registrar in place; a second
    resolver, at [wild.eth], supports the extended interface. *)
Definition wildcard_resolver : string := "0xC0ffee254729296a45a3885639AC7E10F9d54979".

Definition genesis2 : state := {|
  st_owner := ("addr.reverse", PStr reverse_registrar) :: st_owner genesis;
  st_resolver := ("wild.eth", PStr wildcard_resolver) :: st_resolver genesis;
  st_addr := (wildcard_resolver, "*", bob) :: st_addr genesis;
  st_name := st_name genesis;
  st_text := st_text genesis;
  st_supports := (wildcard_resolver, "0x9061b923") :: st_supports genesis;
  st_reverting := st_reverting genesis;
  st_accounts := st_accounts genesis
|}.

(** The same state seen from a client that controls [accts]. *)
Definition with_accounts (st : state) (accts : list pyval) : state :=
  State (st_owner st) (st_resolver st) (st_addr st) (st_name st) (st_text st)
        (st_supports st) (st_reverting st) accts.

End TestChain2.

(* ===================================================================== *)
(** * Vocabulary of the statements *)
(* ===================================================================== *)

Section Vocabulary.
Context {C : Collab}.

(** A computation that leaves the chain and the log of submitted
    transactions as they were. *)
Definition read_only {A} (m : M C A) : Prop := forall w, snd (m w) = w.

(** The candidates the resolver walk visits: the name, its parent, and so
    on, up to but not including the empty name. *)
Fixpoint candidates (fuel : nat) (name : string) : list string :=
  match fuel with
  | O => []
  | S fuel' =>
      if is_empty_name name then [] else name :: candidates fuel' (parent name)
  end.

Definition ancestors (name : string) : list string :=
  candidates (String.length name) name.

(** The static test of the capability probe: some function of the
    resolver's ABI has [supportsInterface] in its repr. *)
Definition lists_supportsInterface (r : contract) : bool :=
  existsb (fun func => PyStr.contains "supportsInterface" func)
          (all_functions C (c_abi r)).

(** The registry's [resolver(node)] entry for a name, as the walk reads it. *)
Definition resolver_entry (ch : chain C) (name : string) : outcome pyval :=
  match normal_name_to_hash C name with
  | Ok node => eth_call C ch ens "resolver" [PBytes node]
  | Raise e => Raise e
  | OutOfFuel => OutOfFuel
  end.

Definition no_resolver_at (ch : chain C) (name : string) : Prop :=
  exists a, resolver_entry ch name = Ok a /\ is_none_or_zero_address a = true.

(** The name claimed by the [k]-th subnode claim (counting from 0) when
    [unowned] lists the unowned labels from most to least specific under
    the owned ancestor [owned], and the name it is claimed under. *)
Definition claimed_under (unowned : list string) (owned : string) (k : nat) : string :=
  PyStr.join "." (skipn (List.length unowned - k) unowned ++ [owned])%list.

Definition claimed_label (unowned : list string) (k : nat) : string :=
  nth (List.length unowned - 1 - k) unowned "".

(** The subnode claim for [label] under the name [under]. *)
Definition is_claim (tx : sent_tx) (under label : string) (owner_ : pyval)
    (params : txparams) : Prop :=
  exists node lh,
    raw_name_to_hash C under = Ok node /\
    label_to_hash C label = Ok lh /\
    tx = Sent ens "setSubnodeOwner" [PBytes node; PBytes lh; owner_] params.

End Vocabulary.

(* ===================================================================== *)
(** * Vocabulary of the further statements *)
(* ===================================================================== *)

Section Vocabulary2.
Context {C : Collab}.

(** Whatever [m] does, the transactions it submits all satisfy [P]. *)
Definition sends_only {A} (P : sent_tx -> Prop) (m : M C A) : Prop :=
  forall w, exists txs,
    w_sent (snd (m w)) = (w_sent w ++ txs)%list /\ Forall P txs.

(** A transaction to the registry, to a resolver, to the reverse
    registrar, by function name. *)
Definition to_registry (fn : string) (tx : sent_tx) : Prop :=
  tx_to tx = ens /\ tx_fn tx = fn.

Definition to_resolver (fn : string) (tx : sent_tx) : Prop :=
  c_abi (tx_to tx) = ABI_RESOLVER /\ tx_fn tx = fn.

Definition to_reverse_registrar (fn : string) (tx : sent_tx) : Prop :=
  c_abi (tx_to tx) = ABI_REVERSE_REGISTRAR /\ tx_fn tx = fn.

(** The registry's [owner(node)] entry for a name, as [ENS.owner] reads it. *)
Definition owner_entry (ch : chain C) (name : string) : outcome pyval :=
  match raw_name_to_hash C name with
  | Ok node => eth_call C ch ens "owner" [PBytes node]
  | Raise e => Raise e
  | OutOfFuel => OutOfFuel
  end.

Definition no_owner_at (ch : chain C) (name : string) : Prop :=
  exists a, owner_entry ch name = Ok a /\ is_none_or_zero_address a = true.

(** The owner [setup_owner] is asked to install:
<<
    if new_owner is default:
        new_owner = super_owner
    elif not new_owner:
        new_owner = ChecksumAddress(EMPTY_ADDR_HEX)
    else:
        new_owner = to_checksum_address(new_owner)
>> *)
Definition requested_owner (new_owner : arg) (super_owner : pyval) : M C pyval :=
  match new_owner with
  | Default => ret super_owner
  | Given v =>
      if negb (truthy v) then ret (PStr EMPTY_ADDR_HEX)
      else cs <- lift (to_checksum_address C v) ;; ret (PStr cs)
  end.

(** The transactions [setup_address] may submit, and those of
    [setup_name]. *)
Definition address_setup_tx (tx : sent_tx) : Prop :=
  to_registry "setSubnodeOwner" tx \/ to_registry "setResolver" tx \/
  to_resolver "setAddr" tx.

Definition name_setup_tx (tx : sent_tx) : Prop :=
  address_setup_tx tx \/ to_reverse_registrar "setName" tx.

End Vocabulary2.

(* ===================================================================== *)
(** * Facts about Python strings and [parent] *)
(* ===================================================================== *)

Module PyStrFacts.
Import PyStr.

Lemma split_nonempty sep s : split sep s <> [].
Proof.
  destruct s as [|c s]; simpl; [discriminate|].
  destruct (Ascii.eqb c sep); [discriminate|].
  destruct (split sep s); discriminate.
Qed.

Lemma join_cons sep x y rest :
  join sep (x :: y :: rest) = x ++ sep ++ join sep (y :: rest).
Proof. reflexivity. Qed.

(** Joining what was split gives the string back. *)
Lemma join_split sep s : join (String sep EmptyString) (split sep s) = s.
Proof.
  induction s as [|c s IH]; [reflexivity|].
  simpl split. destruct (Ascii.eqb c sep) eqn:E.
  - apply Ascii.eqb_eq in E. subst c.
    pose proof (split_nonempty sep s) as Hne.
    destruct (split sep s) as [|l ls]; [congruence|].
    rewrite join_cons, IH. reflexivity.
  - pose proof (split_nonempty sep s) as Hne.
    destruct (split sep s) as [|l ls]; [congruence|].
    destruct ls as [|l' ls].
    + simpl in *. now rewrite IH.
    + rewrite join_cons in IH. rewrite join_cons.
      change (String c l ++ String sep "" ++ join (String sep "") (l' :: ls))
        with (String c (l ++ String sep "" ++ join (String sep "") (l' :: ls))).
      now rewrite IH.
Qed.

Lemma length_append (a b : string) :
  String.length (a ++ b) = String.length a + String.length b.
Proof. induction a; simpl; auto. Qed.

(** No label produced by [split] contains the separator. *)
Lemma split_no_sep sep s l :
  In l (split sep s) -> forall c, In c (list_ascii_of_string l) -> c <> sep.
Proof.
  revert l. induction s as [|c0 s IH]; intros l Hin c Hc.
  - simpl in Hin. destruct Hin as [<-|[]]. destruct Hc.
  - simpl in Hin. destruct (Ascii.eqb c0 sep) eqn:E.
    + destruct Hin as [<-|Hin]; [destruct Hc|]. eapply IH; eauto.
    + pose proof (split_nonempty sep s) as Hne.
      destruct (split sep s) as [|l0 ls]; [congruence|].
      destruct Hin as [<-|Hin].
      * simpl in Hc. destruct Hc as [<-|Hc].
        -- apply Ascii.eqb_neq. exact E.
        -- eapply IH; [left; reflexivity|exact Hc].
      * eapply IH; [right; exact Hin|exact Hc].
Qed.

Lemma split_single sep x : dot_free sep x -> split sep x = [x].
Proof.
  induction x as [|c x IH]; intros H; [reflexivity|].
  simpl. destruct (Ascii.eqb c sep) eqn:E.
  - apply Ascii.eqb_eq in E. exfalso. apply (H c); [left; reflexivity|exact E].
  - rewrite IH; [reflexivity|]. intros c' Hc'. apply H. right. exact Hc'.
Qed.

Lemma split_app_sep sep x rest :
  dot_free sep x -> split sep (x ++ String sep rest) = x :: split sep rest.
Proof.
  induction x as [|c x IH]; intros H.
  - simpl. now rewrite Ascii.eqb_refl.
  - simpl. destruct (Ascii.eqb c sep) eqn:E.
    + apply Ascii.eqb_eq in E. exfalso. apply (H c); [left; reflexivity|exact E].
    + rewrite IH; [reflexivity|]. intros c' Hc'. apply H. right. exact Hc'.
Qed.

(** Splitting what was joined gives the labels back, when no label
    contains the separator. *)
Lemma split_join sep l :
  l <> [] -> Forall (dot_free sep) l ->
  split sep (join (String sep EmptyString) l) = l.
Proof.
  induction l as [|x l IH]; intros Hne Hall; [congruence|].
  inversion Hall as [|? ? Hx Hl]; subst.
  destruct l as [|y l].
  - simpl. now apply split_single.
  - rewrite join_cons.
    change (x ++ String sep "" ++ join (String sep "") (y :: l))
      with (x ++ String sep (join (String sep "") (y :: l))).
    rewrite split_app_sep by exact Hx.
    rewrite IH; [reflexivity|discriminate|exact Hl].
Qed.

Lemma split_dot_free sep s : Forall (dot_free sep) (split sep s).
Proof.
  apply Forall_forall. intros l Hl c Hc. eapply split_no_sep; eauto.
Qed.

End PyStrFacts.

Lemma parent_is_tail name : parent name = PyStr.join "." (tl (labels_of name)).
Proof.
  unfold parent, labels_of.
  destruct (String.eqb name "") eqn:E.
  - apply String.eqb_eq in E. subst. reflexivity.
  - destruct (PyStr.split PyStr.dot name) as [|l [|l' ls]]; reflexivity.
Qed.

(** A non-empty name is strictly longer than its parent: the ancestor
    walks of the class terminate. *)
Lemma parent_shorter name :
  name <> "" -> String.length (parent name) < String.length name.
Proof.
  intros Hne. rewrite parent_is_tail. unfold labels_of.
  pose proof (PyStrFacts.join_split PyStr.dot name) as J.
  pose proof (PyStrFacts.split_nonempty PyStr.dot name) as N.
  destruct (PyStr.split PyStr.dot name) as [|l [|l' ls]]; [congruence| |].
  - simpl in *. subst l. destruct name; [congruence|simpl; lia].
  - rewrite PyStrFacts.join_cons in J. simpl tl.
    change (String PyStr.dot "") with "." in J.
    rewrite <- J. rewrite !PyStrFacts.length_append. simpl. lia.
Qed.

Lemma py_eqb_str s v : py_eqb (PStr s) v = true <-> v = PStr s.
Proof.
  destruct v; simpl; split; intros H; try discriminate.
  - apply String.eqb_eq in H. now subst.
  - injection H as ->. apply String.eqb_refl.
Qed.


(** The labels of the parent are the labels of the name without the
    first one; a name of one label has the empty name, of one empty
    label, as its parent. *)
Lemma labels_of_parent name :
  labels_of (parent name) =
  match tl (labels_of name) with [] => [""] | t => t end.
Proof.
  rewrite parent_is_tail. unfold labels_of.
  pose proof (PyStrFacts.split_dot_free PyStr.dot name) as F.
  destruct (PyStr.split PyStr.dot name) as [|l [|l' ls]]; try reflexivity.
  simpl tl. inversion F; subst.
  apply (PyStrFacts.split_join PyStr.dot (l' :: ls)); [discriminate|assumption].
Qed.

(** C9. For every name, [parent] returns all labels but the first (the
    most specific), joined by dots; [parent("")] and [parent("eth")] are
    the empty name, [parent("foo.eth")] is ["eth"], and
    [parent("1.foo.bar.eth")] is ["foo.bar.eth"]. *)
Theorem parent_drops_first_label :
  (forall name, parent name = PyStr.join "." (tl (labels_of name))) /\
  (forall name,
      labels_of (parent name) =
      match tl (labels_of name) with [] => [""] | t => t end) /\
  parent "" = "" /\
  parent "eth" = "" /\
  parent "foo.eth" = "eth" /\
  parent "1.foo.bar.eth" = "foo.bar.eth".
Proof.
  split; [exact parent_is_tail|].
  split; [exact labels_of_parent|].
  repeat split; reflexivity.
Qed.

(* ===================================================================== *)
(** * The monad: running a bind, and computations that only read *)
(* ===================================================================== *)

Section MonadFacts.
Context {C : Collab}.

Lemma bind_ok {A B} (m : M C A) (f : A -> M C B) w a w' :
  m w = (Ok a, w') -> bind m f w = f a w'.
Proof. intros H. unfold bind. now rewrite H. Qed.

Lemma bind_lift_ok {A B} (o : outcome A) (f : A -> M C B) w a :
  o = Ok a -> bind (lift o) f w = f a w.
Proof. intros ->. reflexivity. Qed.

(** A bind that returned went through a first step that returned. *)
Lemma bind_inv_ok {A B} (m : M C A) (f : A -> M C B) w b w' :
  bind m f w = (Ok b, w') ->
  exists a w1, m w = (Ok a, w1) /\ f a w1 = (Ok b, w').
Proof.
  unfold bind. destruct (m w) as [[a| |] w1]; intros H; try discriminate.
  exists a, w1. split; [reflexivity|exact H].
Qed.

Lemma read_only_eq {A} (m : M C A) w : read_only m -> m w = (fst (m w), w).
Proof. intros H. rewrite <- (H w) at 3. now destruct (m w). Qed.

Lemma read_only_ret {A} (a : A) : read_only (ret a).
Proof. intros w. reflexivity. Qed.

Lemma read_only_raise {A} e : read_only (raise (A := A) e).
Proof. intros w. reflexivity. Qed.

Lemma read_only_lift {A} (o : outcome A) : read_only (lift o).
Proof. intros w. reflexivity. Qed.

Lemma read_only_call c fn args : read_only (call c fn args).
Proof. intros w. reflexivity. Qed.

Lemma read_only_accounts : read_only accounts.
Proof. intros w. reflexivity. Qed.

Lemma read_only_bind {A B} (m : M C A) (f : A -> M C B) :
  read_only m -> (forall a, read_only (f a)) -> read_only (bind m f).
Proof.
  intros Hm Hf w. unfold bind.
  pose proof (Hm w) as E. destruct (m w) as [[a| |] w1]; simpl in E; subst.
  - apply Hf.
  - reflexivity.
  - reflexivity.
Qed.

End MonadFacts.

Create HintDb read_only.

#[global] Hint Resolve read_only_ret read_only_raise read_only_lift
  read_only_call read_only_accounts : read_only.

(** Goals [read_only m] for a [m] built from binds, tests and reads. *)
Ltac read_only_step :=
  match goal with
  | |- read_only (bind _ _) => apply read_only_bind; [|intros]
  | |- read_only (if ?b then _ else _) => destruct b
  | |- read_only (match ?x with _ => _ end) => destruct x
  | |- read_only _ => solve [auto with read_only]
  end.
Ltac read_only_solve := repeat read_only_step.

Section ReadOnly.
Context {C : Collab}.

Lemma read_only_supports r iid : read_only (_resolver_supports_interface r iid).
Proof. unfold _resolver_supports_interface. read_only_solve. Qed.

Lemma read_only_get_resolver_loop fuel cur fn :
  read_only (_get_resolver_loop fuel cur fn).
Proof.
  revert cur. induction fuel as [|fuel IH]; intros cur; simpl.
  - intros w. reflexivity.
  - read_only_solve.
Qed.

Lemma read_only_get_resolver nn fn : read_only (_get_resolver nn fn).
Proof. apply read_only_get_resolver_loop. Qed.

Lemma read_only_checksum_if_address v : read_only (checksum_if_address v).
Proof. unfold checksum_if_address. read_only_solve. Qed.

Lemma read_only_decode r c fn : read_only (_decode_ensip10_resolve_data r c fn).
Proof. unfold _decode_ensip10_resolve_data. read_only_solve. Qed.

Hint Resolve read_only_supports read_only_get_resolver
  read_only_checksum_if_address read_only_decode : read_only.

Lemma read_only_resolve name fn : read_only (_resolve name fn).
Proof. unfold _resolve. read_only_solve. Qed.

Lemma read_only_address name : read_only (address name).
Proof. apply read_only_resolve. Qed.

Lemma read_only_owner name : read_only (owner name).
Proof. unfold owner. read_only_solve. Qed.

Lemma read_only_resolver name : read_only (resolver name).
Proof. unfold resolver. read_only_solve. Qed.

Hint Resolve read_only_resolve read_only_address read_only_owner
  read_only_resolver : read_only.

Lemma read_only_address_of_result v : read_only (address_of_result v).
Proof. unfold address_of_result. read_only_solve. Qed.

Lemma read_only_assert_control a : read_only (_assert_control a).
Proof. unfold _assert_control. read_only_solve. Qed.

Lemma read_only_first_owner_loop pieces o unowned name :
  read_only (_first_owner_loop pieces o unowned name).
Proof.
  revert o unowned name. induction pieces as [|p rest IH]; intros; simpl.
  - auto with read_only.
  - read_only_solve.
Qed.

Lemma read_only_first_owner name : read_only (_first_owner name).
Proof.
  unfold _first_owner. read_only_solve; apply read_only_first_owner_loop.
Qed.

Lemma read_only_target_address a o : read_only (target_address a o).
Proof. unfold target_address. read_only_solve. Qed.

Lemma read_only_name a : read_only (name a).
Proof.
  unfold name. read_only_solve; apply read_only_address_of_result.
Qed.

Lemma read_only_get_text name key : read_only (get_text name key).
Proof. unfold get_text. read_only_solve. Qed.

End ReadOnly.

#[global] Hint Resolve read_only_supports read_only_get_resolver
  read_only_checksum_if_address read_only_decode read_only_resolve
  read_only_address read_only_owner read_only_resolver
  read_only_address_of_result read_only_assert_control
  read_only_first_owner read_only_target_address read_only_name
  read_only_get_text : read_only.

(* ===================================================================== *)
(** * The capability probe *)
(* ===================================================================== *)

Section Probe.
Context {C : Collab}.

(** C1, as the code has it. The probe returns [False] at once when no
    function of the resolver's ABI is shaped like [supportsInterface];
    otherwise it issues the [supportsInterface(interfaceId)] read call
    and its outcome is the outcome of that call: the value the call
    returned, or the exception the call raised, which reaches the caller. *)
Theorem resolver_supports_interface_spec (r : contract) (iid : string)
    (w : world C) :
  (lists_supportsInterface r = false ->
   _resolver_supports_interface r iid w = (Ok (PBool false), w)) /\
  (lists_supportsInterface r = true ->
   _resolver_supports_interface r iid w =
   (eth_call C (w_chain w) r "supportsInterface" [PStr iid], w)) /\
  (forall e,
      lists_supportsInterface r = true ->
      eth_call C (w_chain w) r "supportsInterface" [PStr iid] = Raise e ->
      fst (_resolver_supports_interface r iid w) = Raise e).
Proof.
  unfold _resolver_supports_interface, lists_supportsInterface.
  repeat split.
  - intros ->. reflexivity.
  - intros ->. reflexivity.
  - intros e -> He. simpl. unfold call. simpl. exact He.
Qed.

End Probe.

(** On the test chain: a reverse resolver has no [supportsInterface] and
    is reported as not supporting text records; the public resolver
    answers the call; the call to the broken resolver reverts and so does
    the probe. *)
Lemma resolver_supports_interface_runs :
  _resolver_supports_interface (C := TestChain.collab)
    (Contract ABI_REVERSE_RESOLVER (PStr TestChain.public_resolver)) "0x59d1d43c"
    (TestChain.w0 TestChain.genesis)
  = (Ok (PBool false), TestChain.w0 TestChain.genesis) /\
  _resolver_supports_interface (C := TestChain.collab)
    (Contract ABI_RESOLVER (PStr TestChain.public_resolver)) "0x59d1d43c"
    (TestChain.w0 TestChain.genesis)
  = (Ok (PBool true), TestChain.w0 TestChain.genesis) /\
  fst (_resolver_supports_interface (C := TestChain.collab)
         (Contract ABI_RESOLVER (PStr TestChain.broken_resolver)) "0x59d1d43c"
         (TestChain.w0 TestChain.genesis))
  = Raise (RpcError "execution reverted").
Proof.
  split; [|split].
  - apply (proj1 (resolver_supports_interface_spec (C := TestChain.collab) _ _ _)).
    reflexivity.
  - refine (eq_trans
              (proj1 (proj2 (resolver_supports_interface_spec
                               (C := TestChain.collab) _ _ _)) _) _);
      reflexivity.
  - apply (proj2 (proj2 (resolver_supports_interface_spec (C := TestChain.collab) _ _ _)));
      reflexivity.
Defined.

(** The resolver of [broken.eth] lists [supportsInterface], the call to
    it fails, and the probe does not answer [False]: it raises what the
    call raised. *)
Lemma probe_failure_reaches_caller :
  lists_supportsInterface (C := TestChain.collab)
    (Contract ABI_RESOLVER (PStr TestChain.broken_resolver)) = true /\
  eth_call TestChain.collab TestChain.genesis
    (Contract ABI_RESOLVER (PStr TestChain.broken_resolver))
    "supportsInterface" [PStr "0x59d1d43c"]
  = Raise (RpcError "execution reverted") /\
  fst (_resolver_supports_interface (C := TestChain.collab)
         (Contract ABI_RESOLVER (PStr TestChain.broken_resolver)) "0x59d1d43c"
         (TestChain.w0 TestChain.genesis))
  = Raise (RpcError "execution reverted") /\
  fst (_resolver_supports_interface (C := TestChain.collab)
         (Contract ABI_RESOLVER (PStr TestChain.broken_resolver)) "0x59d1d43c"
         (TestChain.w0 TestChain.genesis))
  <> Ok (PBool false).
Proof. repeat split; try reflexivity. discriminate. Qed.

(* ===================================================================== *)
(** * The resolver walk *)
(* ===================================================================== *)

Lemma is_empty_name_false name : is_empty_name name = false <-> name <> "".
Proof. unfold is_empty_name. apply String.eqb_neq. Qed.

Lemma length_zero_empty (s : string) : String.length s = 0 -> s = "".
Proof. destruct s; simpl; [reflexivity|discriminate]. Qed.

(** Any fuel that covers the length of the name lists the same candidates. *)
Lemma candidates_fuel fuel1 :
  forall fuel2 name,
    String.length name <= fuel1 -> String.length name <= fuel2 ->
    candidates fuel1 name = candidates fuel2 name.
Proof.
  induction fuel1 as [|fuel1 IH]; intros fuel2 name H1 H2.
  - assert (name = "") as -> by (apply length_zero_empty; lia).
    destruct fuel2; reflexivity.
  - destruct fuel2 as [|fuel2].
    + assert (name = "") as -> by (apply length_zero_empty; lia). reflexivity.
    + simpl. destruct (is_empty_name name) eqn:E; [reflexivity|].
      apply is_empty_name_false in E. pose proof (parent_shorter name E).
      f_equal. apply IH; lia.
Qed.

Lemma ancestors_empty : ancestors "" = [].
Proof. reflexivity. Qed.

Lemma ancestors_cons name :
  name <> "" -> ancestors name = name :: ancestors (parent name).
Proof.
  intros Hne. unfold ancestors.
  destruct (String.length name) as [|n] eqn:L.
  - apply length_zero_empty in L. congruence.
  - simpl. apply is_empty_name_false in Hne as E. rewrite E. f_equal.
    pose proof (parent_shorter name Hne). apply candidates_fuel; lia.
Qed.

Example ancestors_example :
  ancestors "1.foo.bar.eth" = ["1.foo.bar.eth"; "foo.bar.eth"; "bar.eth"; "eth"].
Proof. reflexivity. Qed.

Section Walk.
Context {C : Collab}.

Lemma loop_step_zero fuel name fn (w : world C) a :
  name <> "" ->
  resolver_entry (w_chain w) name = Ok a ->
  is_none_or_zero_address a = true ->
  _get_resolver_loop (S fuel) name fn w =
  _get_resolver_loop fuel (parent name) fn w.
Proof.
  intros Hne He Hz. simpl. apply is_empty_name_false in Hne. rewrite Hne.
  unfold resolver_entry in He. unfold bind, lift, call.
  destruct (normal_name_to_hash C name); try discriminate.
  rewrite He, Hz. reflexivity.
Qed.

Lemma loop_step_found fuel name fn (w : world C) a :
  name <> "" ->
  resolver_entry (w_chain w) name = Ok a ->
  is_none_or_zero_address a = false ->
  _get_resolver_loop (S fuel) name fn w =
  (Ok (Some (_type_aware_resolver a fn), name), w).
Proof.
  intros Hne He Hz. simpl. apply is_empty_name_false in Hne. rewrite Hne.
  unfold resolver_entry in He. unfold bind, lift, call.
  destruct (normal_name_to_hash C name); try discriminate.
  rewrite He, Hz. reflexivity.
Qed.

Lemma loop_step_raise fuel name fn (w : world C) e :
  name <> "" ->
  resolver_entry (w_chain w) name = Raise e ->
  _get_resolver_loop (S fuel) name fn w = (Raise e, w).
Proof.
  intros Hne He. simpl. apply is_empty_name_false in Hne. rewrite Hne.
  unfold resolver_entry in He. unfold bind, lift, call.
  destruct (normal_name_to_hash C name); try discriminate.
  - rewrite He. reflexivity.
  - congruence.
Qed.

(** What the loop does at the first candidate that is not skipped. *)
Lemma loop_skips_prefix fn (w : world C) pre :
  forall fuel name c post,
    String.length name < fuel ->
    ancestors name = (pre ++ c :: post)%list ->
    Forall (no_resolver_at (w_chain w)) pre ->
    c <> "" /\
    exists fuel',
      _get_resolver_loop fuel name fn w = _get_resolver_loop (S fuel') c fn w.
Proof.
  induction pre as [|p pre IH]; intros fuel name c post Hf Ha Hpre.
  - destruct (String.eqb_spec name "") as [->|Hne]; [discriminate|].
    rewrite (ancestors_cons _ Hne) in Ha. injection Ha as <- _.
    split; [exact Hne|]. destruct fuel as [|fuel]; [lia|]. now exists fuel.
  - destruct (String.eqb_spec name "") as [->|Hne]; [discriminate|].
    rewrite (ancestors_cons _ Hne) in Ha. injection Ha as <- Ha.
    inversion Hpre as [|? ? [a [He Hz]] Hpre']; subst.
    destruct fuel as [|fuel]; [lia|].
    rewrite (loop_step_zero _ _ _ _ _ Hne He Hz).
    pose proof (parent_shorter name Hne).
    apply (IH fuel (parent name) c post); [lia|exact Ha|exact Hpre'].
Qed.

Lemma loop_all_skipped fn (w : world C) fuel :
  forall name,
    String.length name < fuel ->
    Forall (no_resolver_at (w_chain w)) (ancestors name) ->
    _get_resolver_loop fuel name fn w = (Ok (None, ""), w).
Proof.
  induction fuel as [|fuel IH]; intros name Hf Hall; [lia|].
  destruct (String.eqb_spec name "") as [->|Hne]; [reflexivity|].
  rewrite (ancestors_cons _ Hne) in Hall.
  inversion Hall as [|? ? [a [He Hz]] Hrest]; subst.
  rewrite (loop_step_zero _ _ _ _ _ Hne He Hz).
  pose proof (parent_shorter name Hne). apply IH; [lia|exact Hrest].
Qed.

Lemma get_resolver_found (normal_name fn_name : string) (w : world C)
    pre c post addr :
  ancestors normal_name = (pre ++ c :: post)%list ->
  Forall (no_resolver_at (w_chain w)) pre ->
  resolver_entry (w_chain w) c = Ok addr ->
  is_none_or_zero_address addr = false ->
  _get_resolver normal_name fn_name w =
  (Ok (Some (_type_aware_resolver addr fn_name), c), w).
Proof.
  intros Ha Hpre He Hz. unfold _get_resolver.
  destruct (loop_skips_prefix fn_name w pre _ normal_name c post
              (Nat.lt_succ_diag_r _) Ha Hpre) as [Hne [fuel' ->]].
  now apply loop_step_found.
Qed.

Lemma get_resolver_none (normal_name fn_name : string) (w : world C) :
  Forall (no_resolver_at (w_chain w)) (ancestors normal_name) ->
  _get_resolver normal_name fn_name w = (Ok (None, ""), w).
Proof. intros Hall. apply loop_all_skipped; [lia|exact Hall]. Qed.

Lemma get_resolver_raise (normal_name fn_name : string) (w : world C)
    pre c post e :
  ancestors normal_name = (pre ++ c :: post)%list ->
  Forall (no_resolver_at (w_chain w)) pre ->
  resolver_entry (w_chain w) c = Raise e ->
  _get_resolver normal_name fn_name w = (Raise e, w).
Proof.
  intros Ha Hpre He. unfold _get_resolver.
  destruct (loop_skips_prefix fn_name w pre _ normal_name c post
              (Nat.lt_succ_diag_r _) Ha Hpre) as [Hne [fuel' ->]].
  now apply loop_step_raise.
Qed.

(** C2. For every normalized name the walk returns the resolver of the
    first candidate, from the name itself up through its successive
    parents, whose registry [resolver(node)] entry is not the zero
    address, paired with that candidate; when every candidate up to the
    root has a zero entry, the walk ends at the empty name and returns
    [(None, "")]; a registry read that fails at the first candidate not
    skipped fails the walk. In each case the walk returns: the unrolling
    of the loop is long enough. *)
Theorem get_resolver_walk (normal_name fn_name : string) (w : world C) :
  (forall pre c post addr,
      ancestors normal_name = (pre ++ c :: post)%list ->
      Forall (no_resolver_at (w_chain w)) pre ->
      resolver_entry (w_chain w) c = Ok addr ->
      is_none_or_zero_address addr = false ->
      _get_resolver normal_name fn_name w =
      (Ok (Some (_type_aware_resolver addr fn_name), c), w)) /\
  (Forall (no_resolver_at (w_chain w)) (ancestors normal_name) ->
   _get_resolver normal_name fn_name w = (Ok (None, ""), w)) /\
  (forall pre c post e,
      ancestors normal_name = (pre ++ c :: post)%list ->
      Forall (no_resolver_at (w_chain w)) pre ->
      resolver_entry (w_chain w) c = Raise e ->
      _get_resolver normal_name fn_name w = (Raise e, w)).
Proof.
  split; [|split].
  - intros. eapply get_resolver_found; eassumption.
  - apply get_resolver_none.
  - intros. eapply get_resolver_raise; eassumption.
Qed.

End Walk.

(** On the test chain: [sub.wallet.eth] has no resolver of its own and
    gets the one registered at [wallet.eth]; nothing is registered on the
    way from [nothing.xyz] to the root. *)
Lemma get_resolver_walk_runs :
  _get_resolver (C := TestChain.collab) "sub.wallet.eth" "addr"
    (TestChain.w0 TestChain.genesis)
  = (Ok (Some (Contract ABI_RESOLVER (PStr TestChain.public_resolver)),
         "wallet.eth"),
     TestChain.w0 TestChain.genesis) /\
  _get_resolver (C := TestChain.collab) "nothing.xyz" "addr"
    (TestChain.w0 TestChain.genesis)
  = (Ok (None, ""), TestChain.w0 TestChain.genesis).
Proof.
  split.
  - apply (proj1 (get_resolver_walk (C := TestChain.collab)
                    "sub.wallet.eth" "addr" (TestChain.w0 TestChain.genesis))
             ["sub.wallet.eth"] "wallet.eth" ["eth"]
             (PStr TestChain.public_resolver)).
    + reflexivity.
    + constructor; [|constructor].
      exists TestChain.zero. split; reflexivity.
    + reflexivity.
    + reflexivity.
  - apply (proj1 (proj2 (get_resolver_walk (C := TestChain.collab)
                           "nothing.xyz" "addr" (TestChain.w0 TestChain.genesis)))).
    repeat constructor; exists TestChain.zero; split; reflexivity.
Defined.

(* ===================================================================== *)
(** * Resolution *)
(* ===================================================================== *)

Section Resolve.
Context {C : Collab}.

(** [_resolve] up to the choice of the call shape. *)
Lemma resolve_located (name fn : string) (w : world C) nn r cur node :
  normalize_name C name = Ok nn ->
  _get_resolver nn fn w = (Ok (Some r, cur), w) ->
  raw_name_to_hash C nn = Ok node ->
  _resolve name fn w =
  bind (_resolver_supports_interface r (EXTENDED_RESOLVER_INTERFACE_ID C))
    (fun ext =>
       if truthy ext then
         let extended_resolver := Contract ABI_EXTENDED_RESOLVER (c_address r) in
         calldata <- lift (encodeABI C extended_resolver fn [PBytes node]) ;;
         wire <- lift (ens_encode_name C nn) ;;
         contract_call_result <-
           call extended_resolver "resolve" [PBytes wire; PBytes calldata] ;;
         result <- _decode_ensip10_resolve_data contract_call_result
                     extended_resolver fn ;;
         checksum_if_address result
       else if String.eqb nn cur then
         result <- call r fn [PBytes node] ;;
         if is_none_or_zero_address result then ret PNone
         else checksum_if_address result
       else ret PNone) w.
Proof.
  intros Hn Hg Hh. unfold _resolve.
  rewrite (bind_lift_ok _ _ _ _ Hn).
  rewrite (bind_ok _ _ _ _ _ Hg). cbn [fst snd].
  rewrite (bind_lift_ok _ _ _ _ Hh). reflexivity.
Qed.

Lemma resolve_no_resolver (name fn : string) (w : world C) nn cur :
  normalize_name C name = Ok nn ->
  _get_resolver nn fn w = (Ok (None, cur), w) ->
  _resolve name fn w = (Ok PNone, w).
Proof.
  intros Hn Hg. unfold _resolve.
  rewrite (bind_lift_ok _ _ _ _ Hn).
  rewrite (bind_ok _ _ _ _ _ Hg). reflexivity.
Qed.

(** C3. The located resolver does not support the extended-resolution
    interface. If it was found exactly at the normalized name, the field
    function is called on it directly: a zero or empty result is "not
    set" and [_resolve] returns [None], an address is returned in
    checksum form, anything else as it is. If it was found only at a
    strict ancestor, [_resolve] returns [None]. *)
Theorem resolve_without_wildcard (name fn : string) (w : world C)
    nn r cur node ext :
  normalize_name C name = Ok nn ->
  _get_resolver nn fn w = (Ok (Some r, cur), w) ->
  raw_name_to_hash C nn = Ok node ->
  fst (_resolver_supports_interface r (EXTENDED_RESOLVER_INTERFACE_ID C) w) = Ok ext ->
  truthy ext = false ->
  (nn = cur ->
   forall result,
     eth_call C (w_chain w) r fn [PBytes node] = Ok result ->
     (is_none_or_zero_address result = true ->
      _resolve name fn w = (Ok PNone, w)) /\
     (is_none_or_zero_address result = false ->
      is_address C result = true ->
      forall cs, to_checksum_address C result = Ok cs ->
                 _resolve name fn w = (Ok (PStr cs), w)) /\
     (is_none_or_zero_address result = false ->
      is_address C result = false ->
      _resolve name fn w = (Ok result, w))) /\
  (nn <> cur -> _resolve name fn w = (Ok PNone, w)).
Proof.
  intros Hn Hg Hh Hs Ht.
  rewrite (resolve_located _ _ _ _ _ _ _ Hn Hg Hh).
  assert (Hs' : _resolver_supports_interface r (EXTENDED_RESOLVER_INTERFACE_ID C) w
                = (Ok ext, w)).
  { rewrite (read_only_eq _ w (read_only_supports _ _)). now rewrite Hs. }
  rewrite (bind_ok _ _ _ _ _ Hs'). rewrite Ht.
  split.
  - intros <-. rewrite String.eqb_refl. intros result Hc.
    assert (Hc' : call r fn [PBytes node] w = (Ok result, w))
      by (unfold call; now rewrite Hc).
    rewrite (bind_ok _ _ _ _ _ Hc').
    repeat split.
    + intros ->. reflexivity.
    + intros -> Ha cs Hcs. unfold checksum_if_address. rewrite Ha.
      rewrite (bind_lift_ok _ _ _ _ Hcs). reflexivity.
    + intros -> Ha. unfold checksum_if_address. rewrite Ha. reflexivity.
  - intros Hne. apply String.eqb_neq in Hne. rewrite Hne. reflexivity.
Qed.

End Resolve.

(** On the test chain, where the public resolver does not support the
    extended interface: [wallet.eth] has it as its own resolver and
    resolves to alice's address; [sub.wallet.eth] only inherits it and
    resolves to nothing. *)
Lemma resolve_without_wildcard_runs :
  _resolve (C := TestChain.collab) "wallet.eth" "addr"
    (TestChain.w0 TestChain.genesis)
  = (Ok TestChain.alice, TestChain.w0 TestChain.genesis) /\
  _resolve (C := TestChain.collab) "sub.wallet.eth" "addr"
    (TestChain.w0 TestChain.genesis)
  = (Ok PNone, TestChain.w0 TestChain.genesis).
Proof.
  split.
  - refine (proj1 (proj2 (proj1
      (resolve_without_wildcard (C := TestChain.collab) "wallet.eth" "addr"
         (TestChain.w0 TestChain.genesis) "wallet.eth"
         (Contract ABI_RESOLVER (PStr TestChain.public_resolver)) "wallet.eth"
         "wallet.eth" (PBool false) _ _ _ _ _) _ TestChain.alice _)) _ _ _ _);
      reflexivity.
  - refine (proj2
      (resolve_without_wildcard (C := TestChain.collab) "sub.wallet.eth" "addr"
         (TestChain.w0 TestChain.genesis) "sub.wallet.eth"
         (Contract ABI_RESOLVER (PStr TestChain.public_resolver)) "wallet.eth"
         "sub.wallet.eth" (PBool false) _ _ _ _ _) _);
      try reflexivity.
    discriminate.
Defined.

(* ===================================================================== *)
(** * Reverse resolution and text records *)
(* ===================================================================== *)

Section Reverse.
Context {C : Collab}.

(** [ENS.name] once its four steps have run. *)
Lemma name_steps (addr : pyval) (w : world C) rd nm cs fwd :
  address_to_reverse_domain C addr = Ok rd ->
  fst (_resolve rd "name" w) = Ok nm ->
  to_checksum_address C addr = Ok cs ->
  fst (address_of_result nm w) = Ok fwd ->
  name addr w = (Ok (if py_eqb (PStr cs) fwd then nm else PNone), w).
Proof.
  intros Hrd Hnm Hcs Hfwd. unfold name.
  rewrite (bind_lift_ok _ _ _ _ Hrd).
  assert (H1 : _resolve rd "name" w = (Ok nm, w)).
  { rewrite (read_only_eq _ w (read_only_resolve _ _)). now rewrite Hnm. }
  rewrite (bind_ok _ _ _ _ _ H1).
  rewrite (bind_lift_ok _ _ _ _ Hcs).
  assert (H2 : address_of_result nm w = (Ok fwd, w)).
  { rewrite (read_only_eq _ w (read_only_address_of_result _)). now rewrite Hfwd. }
  rewrite (bind_ok _ _ _ _ _ H2). reflexivity.
Qed.

(** C4. Reverse authenticity, for every address. When the forward
    resolution of the reverse-resolved name is not the checksummed
    original address, [name] returns [None]; when it is, [name] returns
    the reverse-resolved name; and whenever [name] returns something
    other than [None], it is the reverse-resolved name and its forward
    resolution is the checksummed original address. *)
Theorem name_reverse_authentic (addr : pyval) (w : world C) :
  (forall rd nm cs fwd,
      address_to_reverse_domain C addr = Ok rd ->
      fst (_resolve rd "name" w) = Ok nm ->
      to_checksum_address C addr = Ok cs ->
      fst (address_of_result nm w) = Ok fwd ->
      fwd <> PStr cs ->
      name addr w = (Ok PNone, w)) /\
  (forall rd nm cs,
      address_to_reverse_domain C addr = Ok rd ->
      fst (_resolve rd "name" w) = Ok nm ->
      to_checksum_address C addr = Ok cs ->
      fst (address_of_result nm w) = Ok (PStr cs) ->
      name addr w = (Ok nm, w)) /\
  (forall v,
      fst (name addr w) = Ok v -> v <> PNone ->
      exists rd cs,
        address_to_reverse_domain C addr = Ok rd /\
        fst (_resolve rd "name" w) = Ok v /\
        to_checksum_address C addr = Ok cs /\
        fst (address_of_result v w) = Ok (PStr cs)).
Proof.
  split; [|split].
  - intros rd nm cs fwd Hrd Hnm Hcs Hfwd Hne.
    rewrite (name_steps _ _ _ _ _ _ Hrd Hnm Hcs Hfwd).
    destruct (py_eqb (PStr cs) fwd) eqn:E; [|reflexivity].
    apply py_eqb_str in E. congruence.
  - intros rd nm cs Hrd Hnm Hcs Hfwd.
    rewrite (name_steps _ _ _ _ _ _ Hrd Hnm Hcs Hfwd).
    simpl. now rewrite String.eqb_refl.
  - intros v Hv Hne.
    destruct (name addr w) as [o w'] eqn:E. simpl in Hv. subst o.
    unfold name in E.
    apply bind_inv_ok in E as (rd & w1 & E1 & E).
    apply bind_inv_ok in E as (nm & w2 & E2 & E).
    apply bind_inv_ok in E as (cs & w3 & E3 & E).
    apply bind_inv_ok in E as (fwd & w4 & E4 & E).
    unfold lift in E1, E3. injection E1 as E1 <-. injection E3 as E3 <-.
    pose proof (read_only_resolve rd "name" w) as R2. rewrite E2 in R2.
    simpl in R2. subst w2.
    unfold ret in E. injection E as E _.
    destruct fwd as [| |t| |]; try congruence.
    destruct (String.eqb_spec cs t) as [<-|]; [|congruence]. subst nm.
    exists rd, cs. rewrite E2, E4. repeat split; assumption.
Qed.

End Reverse.

(** On the test chain both alice and bob have a reverse record naming
    [wallet.eth], which resolves to alice: alice gets the name, bob gets
    nothing. *)
Lemma name_reverse_authentic_runs :
  name (C := TestChain.collab) TestChain.bob (TestChain.w0 TestChain.genesis)
  = (Ok PNone, TestChain.w0 TestChain.genesis) /\
  name (C := TestChain.collab) TestChain.alice (TestChain.w0 TestChain.genesis)
  = (Ok (PStr "wallet.eth"), TestChain.w0 TestChain.genesis).
Proof.
  split.
  - refine (proj1 (name_reverse_authentic (C := TestChain.collab) TestChain.bob
                     (TestChain.w0 TestChain.genesis))
              "B0b0000000000000000000000000000000000002.addr.reverse"
              (PStr "wallet.eth")
              "0xB0b0000000000000000000000000000000000002"
              TestChain.alice _ _ _ _ _); try reflexivity.
    discriminate.
  - refine (proj1 (proj2 (name_reverse_authentic (C := TestChain.collab)
                            TestChain.alice (TestChain.w0 TestChain.genesis)))
              "A11ce00000000000000000000000000000000001.addr.reverse"
              (PStr "wallet.eth")
              "0xA11ce00000000000000000000000000000000001" _ _ _ _);
      reflexivity.
Defined.

Section Text.
Context {C : Collab}.

(** [get_text] up to the capability test. *)
Lemma get_text_located (name key : string) (w : world C) node nn nn' r :
  raw_name_to_hash C name = Ok node ->
  normalize_name C name = Ok nn ->
  normalize_name C nn = Ok nn' ->
  fst (_get_resolver nn' "addr" w) = Ok r ->
  get_text name key w =
  match fst r with
  | Some r =>
      bind (_resolver_supports_interface r (GET_TEXT_INTERFACE_ID C))
        (fun sup =>
           if truthy sup then call r "text" [PBytes node; PStr key]
           else raise UnsupportedFunction) w
  | None => (Raise ResolverNotFound, w)
  end.
Proof.
  intros Hh Hn Hn' Hg. unfold get_text.
  rewrite (bind_lift_ok _ _ _ _ Hh), (bind_lift_ok _ _ _ _ Hn).
  assert (Hr : resolver nn w = (Ok (fst r), w)).
  { unfold resolver. rewrite (bind_lift_ok _ _ _ _ Hn').
    assert (Hg' : _get_resolver nn' "addr" w = (Ok r, w)).
    { rewrite (read_only_eq _ w (read_only_get_resolver _ _)). now rewrite Hg. }
    rewrite (bind_ok _ _ _ _ _ Hg'). reflexivity. }
  rewrite (bind_ok _ _ _ _ _ Hr). destruct (fst r); reflexivity.
Qed.

(** C6. [get_text(name, key)], for a name that hashes and normalizes:
    when no candidate from the name up to the root has a resolver it
    raises [ResolverNotFound]; when a resolver is found and the probe for
    the text-record interface answers no, it raises
    [UnsupportedFunction]; when the probe answers yes, it returns what
    the resolver's [text(node, key)] gives. *)
Theorem get_text_spec (name key : string) (w : world C) node nn nn' :
  raw_name_to_hash C name = Ok node ->
  normalize_name C name = Ok nn ->
  normalize_name C nn = Ok nn' ->
  (Forall (no_resolver_at (w_chain w)) (ancestors nn') ->
   get_text name key w = (Raise ResolverNotFound, w)) /\
  (forall r cur sup,
      _get_resolver nn' "addr" w = (Ok (Some r, cur), w) ->
      fst (_resolver_supports_interface r (GET_TEXT_INTERFACE_ID C) w) = Ok sup ->
      (truthy sup = false ->
       get_text name key w = (Raise UnsupportedFunction, w)) /\
      (truthy sup = true ->
       get_text name key w =
       (eth_call C (w_chain w) r "text" [PBytes node; PStr key], w))).
Proof.
  intros Hh Hn Hn'. split.
  - intros Hall.
    rewrite (get_text_located _ _ _ _ _ _ (None, "") Hh Hn Hn').
    + reflexivity.
    + now rewrite (get_resolver_none _ _ _ Hall).
  - intros r cur sup Hg Hs.
    rewrite (get_text_located _ _ _ _ _ _ (Some r, cur) Hh Hn Hn')
      by now rewrite Hg.
    cbn [fst].
    assert (Hs' : _resolver_supports_interface r (GET_TEXT_INTERFACE_ID C) w
                  = (Ok sup, w)).
    { rewrite (read_only_eq _ w (read_only_supports _ _)). now rewrite Hs. }
    rewrite (bind_ok _ _ _ _ _ Hs').
    split; intros ->; reflexivity.
Qed.

End Text.

(** On the test chain: [nothing.xyz] has no resolver; the resolver of
    [legacy.eth] has no text records; [wallet.eth] has a [url] record. *)
Lemma get_text_runs :
  get_text (C := TestChain.collab) "nothing.xyz" "url" (TestChain.w0 TestChain.genesis)
  = (Raise ResolverNotFound, TestChain.w0 TestChain.genesis) /\
  get_text (C := TestChain.collab) "legacy.eth" "url" (TestChain.w0 TestChain.genesis)
  = (Raise UnsupportedFunction, TestChain.w0 TestChain.genesis) /\
  get_text (C := TestChain.collab) "wallet.eth" "url" (TestChain.w0 TestChain.genesis)
  = (Ok (PStr "https://example.org"), TestChain.w0 TestChain.genesis).
Proof.
  split; [|split].
  - refine (proj1 (get_text_spec (C := TestChain.collab) "nothing.xyz" "url"
                     (TestChain.w0 TestChain.genesis)
                     "nothing.xyz" "nothing.xyz" "nothing.xyz" _ _ _) _);
      try reflexivity.
    repeat constructor; exists TestChain.zero; split; reflexivity.
  - refine (proj1 (proj2 (get_text_spec (C := TestChain.collab) "legacy.eth" "url"
                            (TestChain.w0 TestChain.genesis)
                            "legacy.eth" "legacy.eth" "legacy.eth" _ _ _)
                     (Contract ABI_RESOLVER (PStr TestChain.old_resolver))
                     "legacy.eth" (PBool false) _ _) _);
      reflexivity.
  - refine (eq_trans
              (proj2 (proj2 (get_text_spec (C := TestChain.collab) "wallet.eth" "url"
                               (TestChain.w0 TestChain.genesis)
                               "wallet.eth" "wallet.eth" "wallet.eth" _ _ _)
                        (Contract ABI_RESOLVER (PStr TestChain.public_resolver))
                        "wallet.eth" (PBool true) _ _) _) _);
      reflexivity.
Defined.

(* ===================================================================== *)
(** * Ownership: discovery and claims *)
(* ===================================================================== *)

Lemma join_cons_nonempty sep x rest :
  rest <> [] -> PyStr.join sep (x :: rest) = x ++ sep ++ PyStr.join sep rest.
Proof. destruct rest; [congruence|reflexivity]. Qed.

Lemma join_snoc_dot l a b :
  PyStr.join "." (l ++ [(a ++ "." ++ b)%string])%list =
  PyStr.join "." (l ++ [a; b])%list.
Proof.
  induction l as [|x l IH]; [reflexivity|].
  change ((x :: l) ++ [(a ++ "." ++ b)%string])%list
    with (x :: (l ++ [(a ++ "." ++ b)%string]))%list.
  change ((x :: l) ++ [a; b])%list with (x :: (l ++ [a; b]))%list.
  rewrite !join_cons_nonempty by (destruct l; discriminate).
  now rewrite IH.
Qed.

Lemma skipn_nth_cons {A} (d : A) (l : list A) i :
  i < List.length l -> skipn i l = nth i l d :: skipn (S i) l.
Proof.
  revert i. induction l as [|x l IH]; intros i Hi; simpl in Hi; [lia|].
  destruct i as [|i]; [reflexivity|]. simpl. apply IH. lia.
Qed.

(** Each claim is made under the name the claim before it created. *)
Lemma claimed_under_succ unowned owned k :
  k < List.length unowned ->
  claimed_under unowned owned (S k) =
  claimed_label unowned k ++ "." ++ claimed_under unowned owned k.
Proof.
  intros Hk. unfold claimed_under, claimed_label.
  rewrite (skipn_nth_cons "" unowned (List.length unowned - S k)) by lia.
  replace (S (List.length unowned - S k)) with (List.length unowned - k) by lia.
  replace (List.length unowned - 1 - k) with (List.length unowned - S k) by lia.
  change ((?x :: ?l) ++ ?m)%list with (x :: (l ++ m))%list.
  apply join_cons_nonempty.
  destruct (skipn (List.length unowned - k) unowned); discriminate.
Qed.

Section Ownership.
Context {C : Collab}.

Lemma transact_sent c fn args params (w : world C) :
  w_sent (snd (transact c fn args params w)) =
  (w_sent w ++ [Sent c fn args params])%list.
Proof.
  unfold transact. destruct (eth_transact C (w_chain w) c fn args params).
  reflexivity.
Qed.

(** The claims of the loop, in the order of its list of labels. *)
Lemma claim_loop_order owner_ params labels :
  forall owned (w w' : world C),
    _claim_loop owner_ labels owned params w = (Ok tt, w') ->
    exists txs,
      w_sent w' = (w_sent w ++ txs)%list /\
      List.length txs = List.length labels /\
      forall k, k < List.length labels ->
        exists tx,
          nth_error txs k = Some tx /\
          is_claim tx (PyStr.join "." (rev (firstn k labels) ++ [owned])%list)
                   (nth k labels "") owner_ params.
Proof.
  induction labels as [|label rest IH]; intros owned w w' H.
  - injection H as <-. exists []. rewrite app_nil_r.
    repeat split. simpl. intros k Hk. lia.
  - simpl in H.
    apply bind_inv_ok in H as (node & w1 & E1 & H).
    apply bind_inv_ok in H as (lh & w2 & E2 & H).
    apply bind_inv_ok in H as (txh & w3 & E3 & H).
    unfold lift in E1, E2. injection E1 as E1 <-. injection E2 as E2 <-.
    pose proof (transact_sent ens "setSubnodeOwner"
                  [PBytes node; PBytes lh; owner_] params w) as S3.
    rewrite E3 in S3. simpl in S3.
    destruct (IH _ _ _ H) as (txs & Hs & Hl & Hk).
    exists (Sent ens "setSubnodeOwner" [PBytes node; PBytes lh; owner_] params :: txs).
    split; [|split].
    + rewrite Hs, S3, <- app_assoc. reflexivity.
    + simpl. now rewrite Hl.
    + intros [|k] Hlt.
      * eexists. split; [reflexivity|]. exists node, lh. repeat split; assumption.
      * simpl in Hlt. destruct (Hk k ltac:(lia)) as (tx & Hn & Hc).
        exists tx. split; [exact Hn|].
        simpl firstn. simpl rev. simpl nth.
        rewrite <- app_assoc. simpl app.
        rewrite <- join_snoc_dot. exact Hc.
Qed.

(** [_claim_ownership] submits one claim per unowned label, from the
    least specific label to the most specific. *)
Lemma claim_ownership_order owner_ unowned owned old_owner params
    (w w' : world C) :
  _claim_ownership owner_ unowned owned old_owner params w = (Ok tt, w') ->
  exists txs,
    w_sent w' = (w_sent w ++ txs)%list /\
    List.length txs = List.length unowned /\
    forall k, k < List.length unowned ->
      exists tx,
        nth_error txs k = Some tx /\
        is_claim tx (claimed_under unowned owned k) (claimed_label unowned k)
          owner_
          (set_item params "from" (if truthy old_owner then old_owner else owner_)).
Proof.
  unfold _claim_ownership. intros H.
  destruct (claim_loop_order _ _ _ _ _ _ H) as (txs & Hs & Hl & Hk).
  rewrite length_rev in Hl, Hk.
  exists txs. split; [exact Hs|]. split; [exact Hl|].
  intros k Hlt. destruct (Hk k Hlt) as (tx & Hn & Hc).
  exists tx. split; [exact Hn|].
  unfold claimed_under, claimed_label.
  rewrite firstn_rev, rev_involutive in Hc.
  rewrite rev_nth in Hc by exact Hlt.
  replace (List.length unowned - 1 - k) with (List.length unowned - S k) by lia.
  exact Hc.
Qed.

(** The discovery loop appends a prefix of [pieces] to [unowned]; when it
    ends on an owner, the owned name is what is left of [pieces]. *)
Lemma first_owner_loop_spec pieces :
  forall o u n0 (w w' : world C) o' u' n',
    is_none_or_zero_address o = true ->
    _first_owner_loop pieces o u n0 w = (Ok (o', u', n'), w') ->
    exists j,
      j <= List.length pieces /\
      u' = (u ++ firstn j pieces)%list /\
      (is_none_or_zero_address o' = false ->
       j < List.length pieces /\ n' = PyStr.join "." (skipn j pieces)).
Proof.
  induction pieces as [|p rest IH]; intros o u n0 w w' o' u' n' Hz H.
  - injection H as <- <- <- <-. exists 0. rewrite app_nil_r.
    repeat split; auto; congruence.
  - cbn [_first_owner_loop] in H. rewrite Hz in H. cbn [negb] in H.
    apply bind_inv_ok in H as (o1 & w1 & E1 & H).
    destruct (is_none_or_zero_address o1) eqn:Z1.
    + destruct (IH _ _ _ _ _ _ _ _ Z1 H) as (j & Hj & Hu & Hn).
      exists (S j). split; [simpl; lia|]. split.
      * rewrite Hu, <- app_assoc. reflexivity.
      * intros Ho. destruct (Hn Ho) as [Hlt ->]. split; [simpl; lia|reflexivity].
    + injection H as <- <- <- <-. exists 0. rewrite app_nil_r.
      split; [lia|]. split; [reflexivity|]. intros _.
      split; [simpl; lia|reflexivity].
Qed.

Lemma first_owner_spec name nn (w w' : world C) o unowned owned :
  normalize_name C name = Ok nn ->
  _first_owner name w = (Ok (o, unowned, owned), w') ->
  unowned = firstn (List.length unowned) (labels_of nn) /\
  List.length unowned <= List.length (labels_of nn) /\
  (is_none_or_zero_address o = false ->
   owned = PyStr.join "." (skipn (List.length unowned) (labels_of nn))).
Proof.
  intros Hn H. unfold _first_owner in H.
  rewrite (bind_lift_ok _ _ _ _ Hn) in H.
  destruct (first_owner_loop_spec _ PNone _ _ _ _ _ _ _ eq_refl H)
    as (j & Hj & Hu & Ho).
  simpl in Hu. subst unowned. fold (labels_of nn) in *.
  rewrite length_firstn, Nat.min_l by exact Hj.
  repeat split; auto. intros Hz. now destruct (Ho Hz).
Qed.

(** [setup_owner] that returns has either submitted nothing or run
    [_claim_ownership] on what [_first_owner] found. *)
Lemma setup_owner_claims name new_owner params (w w' : world C) v :
  setup_owner name new_owner params w = (Ok v, w') ->
  exists super_owner unowned owned,
    _first_owner name w = (Ok (super_owner, unowned, owned), w) /\
    (w' = w \/
     _claim_ownership v unowned owned super_owner params w = (Ok tt, w')).
Proof.
  intros H. unfold setup_owner in H.
  apply bind_inv_ok in H as ([[so unowned] owned] & w1 & E1 & H).
  pose proof (read_only_first_owner name w) as R1. rewrite E1 in R1.
  simpl in R1. subst w1.
  exists so, unowned, owned. split; [exact E1|].
  apply bind_inv_ok in H as (no & w2 & E2 & H).
  assert (w2 = w) as ->.
  { assert (R : read_only
                  (match new_owner with
                   | Default => ret so
                   | Given v0 =>
                       if negb (truthy v0) then ret (PStr EMPTY_ADDR_HEX)
                       else cs <- lift (to_checksum_address C v0) ;; ret (PStr cs)
                   end : M C pyval)) by read_only_solve.
    specialize (R w). rewrite E2 in R. exact R. }
  apply bind_inv_ok in H as (cur & w3 & E3 & H).
  pose proof (read_only_owner name w) as R3. rewrite E3 in R3.
  simpl in R3. subst w3.
  destruct (py_eqb no (PStr EMPTY_ADDR_HEX) && negb (truthy cur)).
  { injection H as _ <-. now left. }
  destruct (py_eqb cur no).
  { injection H as _ <-. now left. }
  apply bind_inv_ok in H as ([] & w4 & E4 & H).
  pose proof (read_only_assert_control so w) as R4. rewrite E4 in R4.
  simpl in R4. subst w4.
  apply bind_inv_ok in H as ([] & w5 & E5 & H).
  injection H as <- <-. right. exact E5.
Qed.

End Ownership.

Lemma Forall_of_nth_error {A} (P : A -> Prop) (l : list A) :
  (forall k, k < List.length l -> exists x, nth_error l k = Some x /\ P x) ->
  Forall P l.
Proof.
  intros H. apply Forall_forall. intros x Hx.
  apply In_nth_error in Hx as [k Hk].
  assert (Hlt : k < List.length l) by (apply nth_error_Some; congruence).
  destruct (H k Hlt) as (y & Hy & Py). congruence.
Qed.

Section ClaimOrder.
Context {C : Collab}.

Lemma is_claim_fn tx under label o params :
  is_claim (C := C) tx under label o params -> tx_fn tx = "setSubnodeOwner".
Proof. intros (node & lh & _ & _ & ->). reflexivity. Qed.

(** The transactions of a [setup_owner] that returns. *)
Lemma setup_owner_claim_order (name : string) (new_owner : arg)
    (params : txparams) (w w' : world C) (v : pyval) (nn : string) :
  normalize_name C name = Ok nn ->
  setup_owner name new_owner params w = (Ok v, w') ->
  exists super_owner unowned owned txs,
    _first_owner name w = (Ok (super_owner, unowned, owned), w) /\
    unowned = firstn (List.length unowned) (labels_of nn) /\
    w_sent w' = (w_sent w ++ txs)%list /\
    (txs = [] \/ List.length txs = List.length unowned) /\
    forall k, k < List.length txs ->
      exists tx,
        nth_error txs k = Some tx /\
        is_claim tx (claimed_under unowned owned k) (claimed_label unowned k) v
          (set_item params "from" (if truthy super_owner then super_owner else v)) /\
        claimed_under unowned owned (S k) =
        claimed_label unowned k ++ "." ++ claimed_under unowned owned k.
Proof.
  intros Hn H.
  destruct (setup_owner_claims _ _ _ _ _ _ H) as (so & unowned & owned & Hf & Hc).
  destruct (first_owner_spec _ _ _ _ _ _ _ Hn Hf) as (Hu & _ & _).
  exists so, unowned, owned.
  destruct Hc as [-> | Hc].
  - exists []. rewrite app_nil_r. repeat split; auto.
    simpl. intros k Hk. lia.
  - destruct (claim_ownership_order _ _ _ _ _ _ _ Hc) as (txs & Hs & Hl & Hk).
    exists txs. repeat split; auto.
    intros k Hlt. rewrite Hl in Hlt. destruct (Hk k Hlt) as (tx & Hn' & Hc').
    exists tx. repeat split; auto. now apply claimed_under_succ.
Qed.

(** [setup_owner] submits subnode claims and nothing else. *)
Lemma setup_owner_sends_claims (name : string) (new_owner : arg)
    (params : txparams) (w w' : world C) (v : pyval) :
  setup_owner name new_owner params w = (Ok v, w') ->
  exists txs,
    w_sent w' = (w_sent w ++ txs)%list /\
    Forall (fun tx => tx_fn tx = "setSubnodeOwner") txs.
Proof.
  intros H.
  destruct (setup_owner_claims _ _ _ _ _ _ H) as (so & unowned & owned & Hf & Hc).
  destruct Hc as [-> | Hc].
  - exists []. rewrite app_nil_r. split; [reflexivity|constructor].
  - destruct (claim_ownership_order _ _ _ _ _ _ _ Hc) as (txs & Hs & Hl & Hk).
    exists txs. split; [exact Hs|].
    apply Forall_of_nth_error. intros k Hlt. rewrite Hl in Hlt.
    destruct (Hk k Hlt) as (tx & Hn & Hc'). exists tx. split; [exact Hn|].
    eapply is_claim_fn. exact Hc'.
Qed.

End ClaimOrder.

(** C5. Ownership-claim ordering. Whenever [setup_owner] returns, the
    unowned labels [_first_owner] discovered are the first labels of the
    normalized name, most specific first, and the transactions submitted
    are subnode claims in the reverse of that order: the [k]-th claim is
    for the [k]-th label counted from the least specific one, under the
    owned ancestor extended by the labels claimed before it, so that each
    claim is made under the name the previous claim created. On the test
    chain, where [c.eth] is the owned ancestor of [a.b.c.eth], the
    discovery gives [a] then [b], and the claims are [b] under [c.eth]
    and then [a] under [b.c.eth]. *)
Theorem ownership_claim_order :
  (forall (C : Collab) (name : string) (new_owner : arg) (params : txparams)
          (w w' : world C) (v : pyval) (nn : string),
      normalize_name C name = Ok nn ->
      setup_owner name new_owner params w = (Ok v, w') ->
      exists super_owner unowned owned txs,
        _first_owner name w = (Ok (super_owner, unowned, owned), w) /\
        unowned = firstn (List.length unowned) (labels_of nn) /\
        w_sent w' = (w_sent w ++ txs)%list /\
        (txs = [] \/ List.length txs = List.length unowned) /\
        forall k, k < List.length txs ->
          exists tx,
            nth_error txs k = Some tx /\
            is_claim tx (claimed_under unowned owned k) (claimed_label unowned k) v
              (set_item params "from"
                 (if truthy super_owner then super_owner else v)) /\
            claimed_under unowned owned (S k) =
            claimed_label unowned k ++ "." ++ claimed_under unowned owned k) /\
  fst (_first_owner (C := TestChain.collab) "a.b.c.eth"
         (TestChain.w0 TestChain.genesis))
  = Ok (TestChain.alice, ["a"; "b"], "c.eth") /\
  map tx_args
    (w_sent (snd (setup_owner (C := TestChain.collab) "a.b.c.eth" Default []
                    (TestChain.w0 TestChain.genesis))))
  = [[PBytes "c.eth"; PBytes "b"; TestChain.alice];
     [PBytes "b.c.eth"; PBytes "a"; TestChain.alice]] /\
  claimed_under ["a"; "b"] "c.eth" 0 = "c.eth" /\
  claimed_under ["a"; "b"] "c.eth" 1 = "b.c.eth" /\
  claimed_under ["a"; "b"] "c.eth" 2 = "a.b.c.eth".
Proof.
  split.
  - intros C. apply setup_owner_claim_order.
  - repeat split; reflexivity.
Qed.

(** The general statement at [a.b.c.eth] on the test chain. *)
Lemma ownership_claim_order_runs :
  exists super_owner unowned owned txs,
    _first_owner (C := TestChain.collab) "a.b.c.eth" (TestChain.w0 TestChain.genesis)
    = (Ok (super_owner, unowned, owned), TestChain.w0 TestChain.genesis) /\
    unowned = firstn (List.length unowned) (labels_of "a.b.c.eth") /\
    w_sent (snd (setup_owner (C := TestChain.collab) "a.b.c.eth" Default []
                   (TestChain.w0 TestChain.genesis)))
    = (w_sent (TestChain.w0 TestChain.genesis) ++ txs)%list /\
    (txs = [] \/ List.length txs = List.length unowned) /\
    forall k, k < List.length txs ->
      exists tx,
        nth_error txs k = Some tx /\
        is_claim (C := TestChain.collab) tx
          (claimed_under unowned owned k) (claimed_label unowned k) TestChain.alice
          (set_item [] "from"
             (if truthy super_owner then super_owner else TestChain.alice)) /\
        claimed_under unowned owned (S k) =
        claimed_label unowned k ++ "." ++ claimed_under unowned owned k.
Proof.
  exact (proj1 ownership_claim_order TestChain.collab "a.b.c.eth" Default []
           (TestChain.w0 TestChain.genesis)
           (snd (setup_owner (C := TestChain.collab) "a.b.c.eth" Default []
                   (TestChain.w0 TestChain.genesis)))
           TestChain.alice "a.b.c.eth" eq_refl eq_refl).
Defined.

(* ===================================================================== *)
(** * [setup_address] and [setup_owner]: when nothing is left to do *)
(* ===================================================================== *)

Section Setup.
Context {C : Collab}.

(** C7. Idempotence of [setup_address]. Once the owner is settled and
    controlled and the target address is well formed, if [address(name)]
    already equals the target, [setup_address] returns [None] right after
    the ownership step: the only transactions it has submitted are the
    subnode claims of [setup_owner], so no [setResolver] and no
    [setAddr]; and when [setup_owner] had nothing to claim, as on a
    second call, the chain and the log are left exactly as they were. *)
Theorem setup_address_idempotent (name : string) (addr : arg)
    (params : txparams) (w w1 : world C) (owner_ target current : pyval) :
  setup_owner name Default params w = (Ok owner_, w1) ->
  fst (_assert_control owner_ w1) = Ok tt ->
  fst (target_address addr owner_ w1) = Ok target ->
  fst (address name w1) = Ok current ->
  py_eqb current target = true ->
  setup_address name addr params w = (Ok PNone, w1) /\
  (exists txs,
      w_sent w1 = (w_sent w ++ txs)%list /\
      Forall (fun tx => tx_fn tx <> "setResolver" /\ tx_fn tx <> "setAddr") txs) /\
  (w1 = w -> setup_address name addr params w = (Ok PNone, w)).
Proof.
  intros Ho Hc Ht Ha He.
  assert (Hmain : setup_address name addr params w = (Ok PNone, w1)).
  { unfold setup_address.
    rewrite (bind_ok _ _ _ _ _ Ho).
    assert (Hc' : _assert_control owner_ w1 = (Ok tt, w1)).
    { rewrite (read_only_eq _ w1 (read_only_assert_control _)). now rewrite Hc. }
    rewrite (bind_ok _ _ _ _ _ Hc').
    assert (Ht' : target_address addr owner_ w1 = (Ok target, w1)).
    { rewrite (read_only_eq _ w1 (read_only_target_address _ _)). now rewrite Ht. }
    rewrite (bind_ok _ _ _ _ _ Ht').
    assert (Ha' : address name w1 = (Ok current, w1)).
    { rewrite (read_only_eq _ w1 (read_only_address _)). now rewrite Ha. }
    rewrite (bind_ok _ _ _ _ _ Ha').
    rewrite He. reflexivity. }
  split; [exact Hmain|]. split.
  - destruct (setup_owner_sends_claims _ _ _ _ _ _ Ho) as (txs & Hs & Hf).
    exists txs. split; [exact Hs|].
    eapply Forall_impl; [|exact Hf].
    intros tx E. cbv beta in E. rewrite E. split; discriminate.
  - intros <-. exact Hmain.
Qed.

(** C10, as the code has it. [new_owner] is passed as [None] or empty.
    When the current owner is [None] or empty, [setup_owner] returns
    [None]; when the current owner is the zero address, as the registry
    reports an unowned name, it returns that zero address. Either way it
    returns without a transaction and without the authorization check:
    the chain and the log are as they were, whatever the accounts are. *)
Theorem setup_owner_clear_unowned (name : string) (v : pyval)
    (params : txparams) (w : world C)
    (found : pyval * list string * string) (current_owner : pyval) :
  truthy v = false ->
  fst (_first_owner name w) = Ok found ->
  fst (owner name w) = Ok current_owner ->
  (truthy current_owner = false ->
   setup_owner name (Given v) params w = (Ok PNone, w)) /\
  (current_owner = PStr EMPTY_ADDR_HEX ->
   setup_owner name (Given v) params w = (Ok (PStr EMPTY_ADDR_HEX), w)).
Proof.
  intros Hv Hf Ho.
  assert (Hf' : _first_owner name w = (Ok found, w)).
  { rewrite (read_only_eq _ w (read_only_first_owner _)). now rewrite Hf. }
  assert (Ho' : owner name w = (Ok current_owner, w)).
  { rewrite (read_only_eq _ w (read_only_owner _)). now rewrite Ho. }
  destruct found as [[so unowned] owned].
  split; intros Hcur; unfold setup_owner;
    rewrite (bind_ok _ _ _ _ _ Hf'); rewrite Hv; cbn [negb];
    rewrite (bind_ok _ _ _ _ _ (eq_refl : ret (PStr EMPTY_ADDR_HEX) w = _));
    rewrite (bind_ok _ _ _ _ _ Ho').
  - rewrite Hcur. reflexivity.
  - subst current_owner. reflexivity.
Qed.

End Setup.

(** A second [setup_address] with the same address on the test chain:
    the first call claims [b.c.eth] and [a.b.c.eth], sets the resolver
    and the address; run again on the chain it leaves, the call returns
    [None] and submits nothing. *)
Lemma setup_address_idempotent_runs :
  let first := setup_address (C := TestChain.collab) "a.b.c.eth"
                 (Given TestChain.bob) [] (TestChain.w0 TestChain.genesis) in
  let w := TestChain.w0 (w_chain (snd first)) in
  fst first = Ok (PBytes "0xtx") /\
  map tx_fn (w_sent (snd first))
  = ["setSubnodeOwner"; "setSubnodeOwner"; "setResolver"; "setAddr"] /\
  setup_address (C := TestChain.collab) "a.b.c.eth" (Given TestChain.bob) [] w
  = (Ok PNone, w).
Proof.
  split; [reflexivity|]. split; [reflexivity|].
  refine (proj1 (setup_address_idempotent (C := TestChain.collab) "a.b.c.eth"
                   (Given TestChain.bob) [] _ _
                   TestChain.alice TestChain.bob TestChain.bob _ _ _ _ _));
    reflexivity.
Defined.

(** Clearing the owner of a name nobody owns, on the test chain with no
    controlled account at all: the registry reports the zero address as
    the owner of [a.b.c.eth], and that is what [setup_owner] returns. *)
Lemma setup_owner_clear_unowned_runs :
  let st := TestChain.State
              (TestChain.st_owner TestChain.genesis)
              (TestChain.st_resolver TestChain.genesis)
              (TestChain.st_addr TestChain.genesis)
              (TestChain.st_name TestChain.genesis)
              (TestChain.st_text TestChain.genesis)
              (TestChain.st_supports TestChain.genesis)
              (TestChain.st_reverting TestChain.genesis) [] in
  setup_owner (C := TestChain.collab) "a.b.c.eth" (Given PNone) [] (TestChain.w0 st)
  = (Ok (PStr EMPTY_ADDR_HEX), TestChain.w0 st).
Proof.
  refine (proj2 (setup_owner_clear_unowned (C := TestChain.collab) "a.b.c.eth"
                   PNone [] _ (TestChain.alice, ["a"; "b"], "c.eth")
                   (PStr EMPTY_ADDR_HEX) _ _ _) _);
    reflexivity.
Defined.

(** [a.b.c.eth] has no owner (the registry reports the zero address),
    [new_owner] is [None], and [setup_owner] does not return [None]. *)
Lemma setup_owner_clear_returns_zero_address :
  fst (owner (C := TestChain.collab) "a.b.c.eth" (TestChain.w0 TestChain.genesis))
  = Ok (PStr EMPTY_ADDR_HEX) /\
  is_none_or_zero_address (PStr EMPTY_ADDR_HEX) = true /\
  setup_owner (C := TestChain.collab) "a.b.c.eth" (Given PNone) []
    (TestChain.w0 TestChain.genesis)
  = (Ok (PStr EMPTY_ADDR_HEX), TestChain.w0 TestChain.genesis) /\
  fst (setup_owner (C := TestChain.collab) "a.b.c.eth" (Given PNone) []
         (TestChain.w0 TestChain.genesis))
  <> Ok PNone.
Proof. repeat split; try reflexivity. discriminate. Qed.

(* ===================================================================== *)
(** * Waiting for a receipt *)
(* ===================================================================== *)

Module ReceiptFacts.
Import Receipt.
Section Wait.

Local Open Scope Z_scope.

Variable receipt : Type.
Variable get : Z -> outcome (option receipt).
Variable rpc_time : Z.

Lemma poll_time_succ poll_latency now k :
  poll_time rpc_time poll_latency now (S k) =
  poll_time rpc_time poll_latency now k + rpc_time + poll_latency.
Proof. unfold poll_time. lia. Qed.

Lemma poll_loop_spec timeout poll_latency now fuel :
  forall k : nat,
    Z.of_nat k * (rpc_time + poll_latency) <= timeout ->
    timeout < Z.of_nat (k + fuel) * (rpc_time + poll_latency) ->
    (forall j, (j < k)%nat ->
               not_yet_mined receipt (get (poll_time rpc_time poll_latency now j))) ->
    exists k' : nat,
      (k <= k' < k + fuel)%nat /\
      (forall j, (j < k')%nat ->
                 not_yet_mined receipt (get (poll_time rpc_time poll_latency now j))) /\
      Z.of_nat k' * (rpc_time + poll_latency) <= timeout /\
      ends_with receipt rpc_time timeout poll_latency k'
        (get (poll_time rpc_time poll_latency now k'))
        (fst (poll_loop receipt get rpc_time fuel (MkTimeout timeout now)
                poll_latency (poll_time rpc_time poll_latency now k))).
Proof.
  induction fuel as [|fuel IH]; intros k Hk Hf Hpre.
  - replace (k + 0)%nat with k in Hf by lia. lia.
  - assert (Hsleep :
      forall (E : fetch_receipt receipt get (poll_time rpc_time poll_latency now k)
                  = Ok None)
             (N : not_yet_mined receipt (get (poll_time rpc_time poll_latency now k))),
      exists k' : nat,
        (k <= k' < k + S fuel)%nat /\
        (forall j, (j < k')%nat ->
           not_yet_mined receipt (get (poll_time rpc_time poll_latency now j))) /\
        Z.of_nat k' * (rpc_time + poll_latency) <= timeout /\
        ends_with receipt rpc_time timeout poll_latency k'
          (get (poll_time rpc_time poll_latency now k'))
          (fst (poll_loop receipt get rpc_time (S fuel) (MkTimeout timeout now)
                  poll_latency (poll_time rpc_time poll_latency now k)))).
    { intros E N. cbn [poll_loop]. rewrite E.
      unfold timeout_sleep, expired. cbn [seconds begun_at].
      rewrite <- poll_time_succ.
      destruct (Z.gtb_spec (poll_time rpc_time poll_latency now (S k))
                           (now + timeout)) as [Hx|Hx].
      - exists k. split; [lia|]. split; [exact Hpre|]. split; [exact Hk|].
        unfold ends_with. unfold poll_time in Hx.
        destruct N as [-> | ->]; (split; [reflexivity|lia]).
      - destruct (IH (S k)) as (k' & Hr & Hn & Hb & He).
        + unfold poll_time in Hx. lia.
        + replace (S k + fuel)%nat with (k + S fuel)%nat by lia. exact Hf.
        + intros j Hj. destruct (Nat.eq_dec j k) as [->|]; [exact N|].
          apply Hpre. lia.
        + exists k'. split; [lia|]. split; [exact Hn|]. split; [exact Hb|exact He]. }
    unfold fetch_receipt in Hsleep.
    destruct (get (poll_time rpc_time poll_latency now k)) as [[r|]|e|] eqn:G.
    + exists k. split; [lia|]. split; [exact Hpre|]. split; [exact Hk|].
      unfold ends_with. rewrite G. cbn [poll_loop]. unfold fetch_receipt.
      rewrite G. reflexivity.
    + apply Hsleep; [reflexivity|now left].
    + destruct e; try (apply Hsleep; [reflexivity|now right]);
        (exists k; split; [lia|]; split; [exact Hpre|]; split; [exact Hk|];
         unfold ends_with; rewrite G; cbn [poll_loop]; unfold fetch_receipt;
         rewrite G; reflexivity).
    + exists k. split; [lia|]. split; [exact Hpre|]. split; [exact Hk|].
      unfold ends_with. rewrite G. cbn [poll_loop]. unfold fetch_receipt.
      rewrite G. reflexivity.
Qed.

(** C8. [wait_for_transaction_receipt] is a poll loop bounded by the
    timeout. With enough unrolling to reach the deadline, which asks for
    a fetch time and a poll interval that add up to a positive step,
    there is a fetch, the [k]-th, that ends the wait: every
    fetch before it came back empty or not found, one fetch time and one
    poll interval apart, all within the deadline; if the [k]-th fetch
    gives a receipt, that receipt is returned; if it is empty or not
    found, the sleep after it passed the deadline and [TimeExhausted] is
    raised; [TransactionNotFound] is never what the caller sees. Any
    other exception of a fetch is raised as it is. *)
Theorem wait_for_transaction_receipt_spec (timeout poll_latency now : Z)
    (fuel : nat) :
  0 <= timeout ->
  timeout < Z.of_nat fuel * (rpc_time + poll_latency) ->
  exists k : nat,
    (k < fuel)%nat /\
    Z.of_nat k * (rpc_time + poll_latency) <= timeout /\
    (forall j, (j < k)%nat ->
               not_yet_mined receipt (get (poll_time rpc_time poll_latency now j))) /\
    let result :=
      fst (wait_for_transaction_receipt receipt get rpc_time fuel timeout
             poll_latency now) in
    result <> Raise TransactionNotFound /\
    match get (poll_time rpc_time poll_latency now k) with
    | Ok (Some r) => result = Ok r
    | Ok None | Raise TransactionNotFound =>
        result = Raise TimeExhausted /\
        timeout < (Z.of_nat k + 1) * (rpc_time + poll_latency)
    | Raise Timeout => result = Raise TimeExhausted
    | Raise e => result = Raise e
    | OutOfFuel => result = OutOfFuel
    end.
Proof.
  intros Ht Hf.
  destruct (poll_loop_spec timeout poll_latency now fuel 0%nat) as (k & Hk & Hn & Hb & He).
  - lia.
  - exact Hf.
  - intros j Hj. lia.
  - exists k. split; [lia|]. split; [exact Hb|]. split; [exact Hn|].
    unfold wait_for_transaction_receipt.
    replace (poll_time rpc_time poll_latency now 0) with now in He
      by (unfold poll_time; lia).
    destruct (poll_loop receipt get rpc_time fuel (MkTimeout timeout now)
                poll_latency now) as [res t'].
    cbn [fst] in He. unfold ends_with in He. cbv zeta.
    destruct (get (poll_time rpc_time poll_latency now k)) as [[r|]|e|].
    + subst res. split; [discriminate|reflexivity].
    + destruct He as [-> Hlt]. split; [discriminate|]. split; [reflexivity|exact Hlt].
    + destruct e; try (subst res; split; [discriminate|reflexivity]).
      destruct He as [-> Hlt]. split; [discriminate|]. split; [reflexivity|exact Hlt].
    + subst res. split; [discriminate|reflexivity].
Qed.

End Wait.
End ReceiptFacts.

(** With a zero timeout and a transaction that is not mined, the wait
    ends after one fetch and one sleep. *)
Lemma zero_timeout_is_prompt (receipt : Type)
    (get : Z -> outcome (option receipt)) (rpc_time poll_latency now : Z) :
  (0 < rpc_time + poll_latency)%Z ->
  Receipt.not_yet_mined receipt (get now) ->
  Receipt.wait_for_transaction_receipt receipt get rpc_time 1 0 poll_latency now
  = (Raise TimeExhausted, (now + rpc_time + poll_latency)%Z).
Proof.
  intros Hs Hn. unfold Receipt.wait_for_transaction_receipt.
  cbn [Receipt.poll_loop]. unfold Receipt.fetch_receipt.
  assert (E : match get now with
              | Raise TransactionNotFound => Ok None
              | r => r
              end = Ok None) by (destruct Hn as [-> | ->]; reflexivity).
  rewrite E. unfold Receipt.timeout_sleep, Receipt.expired.
  cbn [Receipt.seconds Receipt.begun_at].
  destruct (Z.gtb_spec (now + rpc_time + poll_latency) (now + 0)); [reflexivity|lia].
Qed.

(** A transaction mined at tick 25, polled every 10 ticks with fetches of
    1 tick and a timeout of 120: the fetches at 0, 11 and 22 find
    nothing, the one at 33 returns the receipt. A transaction never
    mined, with a zero timeout: [TimeExhausted] after one fetch. *)
Lemma wait_for_transaction_receipt_runs :
  (exists k : nat,
      (k < 12)%nat /\
      (Z.of_nat k * (1 + 10) <= 120)%Z /\
      (forall j, (j < k)%nat ->
         Receipt.not_yet_mined nat
           (Receipt.mined_at 25 7 (Receipt.poll_time 1 10 0 j))) /\
      let result :=
        fst (Receipt.wait_for_transaction_receipt nat (Receipt.mined_at 25 7)
               1 12 120 10 0) in
      result <> Raise TransactionNotFound /\
      match Receipt.mined_at 25 7 (Receipt.poll_time 1 10 0 k) with
      | Ok (Some r) => result = Ok r
      | Ok None | Raise TransactionNotFound =>
          result = Raise TimeExhausted /\ (120 < (Z.of_nat k + 1) * (1 + 10))%Z
      | Raise Timeout => result = Raise TimeExhausted
      | Raise e => result = Raise e
      | OutOfFuel => result = OutOfFuel
      end) /\
  Receipt.wait_for_transaction_receipt nat (Receipt.mined_at 25 7) 1 12 120 10 0
  = (Ok 7, 34%Z) /\
  Receipt.wait_for_transaction_receipt nat Receipt.never_mined 1 1 0 10 0
  = (Raise TimeExhausted, 11%Z).
Proof.
  split; [|split; reflexivity].
  refine (ReceiptFacts.wait_for_transaction_receipt_spec nat
            (Receipt.mined_at 25 7) 1 120 10 0 12 _ _); lia.
Defined.

(* ===================================================================== *)
(** * More about [parent] and the resolver walk *)
(* ===================================================================== *)

(** X3. A name of one label is that label and its parent is the empty
    name; a name of more labels is its first label, a dot, and its
    parent. Unless the name is empty, the parent is strictly shorter. *)
Theorem parent_decomposes (name : string) :
  match labels_of name with
  | [] => False
  | [l] => name = l /\ parent name = ""
  | l :: _ => name = l ++ "." ++ parent name
  end /\
  (name = "" \/ String.length (parent name) < String.length name).
Proof.
  split.
  - rewrite parent_is_tail. unfold labels_of.
    pose proof (PyStrFacts.join_split PyStr.dot name) as J.
    pose proof (PyStrFacts.split_nonempty PyStr.dot name) as N.
    destruct (PyStr.split PyStr.dot name) as [|l [|l' ls]]; [congruence| |].
    + simpl in J. split; [now symmetry|reflexivity].
    + rewrite PyStrFacts.join_cons in J. simpl tl. now symmetry.
  - destruct (String.eqb_spec name ""); [now left|right].
    now apply parent_shorter.
Qed.

Section WalkInversion.
Context {C : Collab}.

Lemma loop_step_out_of_fuel fuel name fn (w : world C) :
  name <> "" ->
  resolver_entry (w_chain w) name = OutOfFuel ->
  _get_resolver_loop (S fuel) name fn w = (OutOfFuel, w).
Proof.
  intros Hne He. simpl. apply is_empty_name_false in Hne. rewrite Hne.
  unfold resolver_entry in He. unfold bind, lift, call.
  destruct (normal_name_to_hash C name); try discriminate.
  - rewrite He. reflexivity.
  - reflexivity.
Qed.

Lemma loop_inversion fn (w : world C) fuel :
  forall name res cur w',
    String.length name < fuel ->
    _get_resolver_loop fuel name fn w = (Ok (res, cur), w') ->
    w' = w /\
    match res with
    | Some r =>
        exists pre post addr,
          ancestors name = (pre ++ cur :: post)%list /\
          Forall (no_resolver_at (w_chain w)) pre /\
          resolver_entry (w_chain w) cur = Ok addr /\
          is_none_or_zero_address addr = false /\
          r = _type_aware_resolver addr fn
    | None =>
        cur = "" /\ Forall (no_resolver_at (w_chain w)) (ancestors name)
    end.
Proof.
  induction fuel as [|fuel IH]; intros name res cur w' Hf H; [lia|].
  destruct (String.eqb_spec name "") as [->|Hne].
  - injection H as <- <- <-. repeat split. constructor.
  - destruct (resolver_entry (w_chain w) name) as [a|e|] eqn:E.
    + destruct (is_none_or_zero_address a) eqn:Z.
      * rewrite (loop_step_zero _ _ _ _ _ Hne E Z) in H.
        pose proof (parent_shorter name Hne).
        assert (Hlt : String.length (parent name) < fuel) by lia.
        destruct (IH _ _ _ _ Hlt H) as [-> Hres].
        split; [reflexivity|].
        assert (Hn : no_resolver_at (w_chain w) name) by (exists a; now split).
        rewrite (ancestors_cons _ Hne).
        destruct res as [r|].
        -- destruct Hres as (pre & post & addr & Ha & Hp & He & Hz & Hr).
           exists (name :: pre), post, addr. rewrite Ha.
           repeat split; auto.
        -- destruct Hres as [-> Hall]. split; [reflexivity|now constructor].
      * rewrite (loop_step_found _ _ _ _ _ Hne E Z) in H.
        injection H as <- <- <-. split; [reflexivity|].
        exists [], (ancestors (parent name)), a.
        rewrite (ancestors_cons _ Hne). repeat split; auto.
    + rewrite (loop_step_raise _ _ _ _ _ Hne E) in H. discriminate.
    + rewrite (loop_step_out_of_fuel _ _ _ _ Hne E) in H. discriminate.
Qed.

(** X1. Whatever [_get_resolver] returns, it has read the registry only:
    a resolver it returns sits at a candidate on the way from the name
    to the root, whose registry entry is not the zero address, while
    every candidate nearer to the name has a zero entry; and it returns
    no resolver only with the empty name, after finding a zero entry at
    every candidate. *)
Theorem get_resolver_located (normal_name fn_name : string) (w w' : world C)
    (res : option contract) (cur : string) :
  _get_resolver normal_name fn_name w = (Ok (res, cur), w') ->
  w' = w /\
  match res with
  | Some r =>
      exists pre post addr,
        ancestors normal_name = (pre ++ cur :: post)%list /\
        Forall (no_resolver_at (w_chain w)) pre /\
        resolver_entry (w_chain w) cur = Ok addr /\
        is_none_or_zero_address addr = false /\
        r = _type_aware_resolver addr fn_name
  | None =>
      cur = "" /\ Forall (no_resolver_at (w_chain w)) (ancestors normal_name)
  end.
Proof. apply loop_inversion. lia. Qed.

(** X2. The lookups [address], [name], [resolver], [reverser], [owner]
    and [get_text] submit no transaction and leave the chain as it is,
    whether they return or raise. *)
Theorem lookups_read_only (nm key : string) (addr : pyval) (w : world C) :
  snd (address nm w) = w /\
  snd (name addr w) = w /\
  snd (resolver nm w) = w /\
  snd (reverser addr w) = w /\
  snd (owner nm w) = w /\
  snd (get_text nm key w) = w.
Proof.
  repeat split.
  - apply read_only_address.
  - apply read_only_name.
  - apply read_only_resolver.
  - assert (R : read_only (reverser addr)) by (unfold reverser; read_only_solve).
    apply R.
  - apply read_only_owner.
  - apply read_only_get_text.
Qed.

(** X4. A name with no resolver at any candidate up to the root resolves
    to [None], for every field: [address] returns [None] and does not
    raise. *)
Theorem resolve_unregistered (nm fn : string) (w : world C) (nn : string) :
  normalize_name C nm = Ok nn ->
  Forall (no_resolver_at (w_chain w)) (ancestors nn) ->
  _resolve nm fn w = (Ok PNone, w) /\ address nm w = (Ok PNone, w).
Proof.
  intros Hn Hall. split.
  - eapply resolve_no_resolver; [exact Hn|]. now apply get_resolver_none.
  - eapply resolve_no_resolver; [exact Hn|]. now apply get_resolver_none.
Qed.

(** X5. When the located resolver supports the extended interface,
    [_resolve] asks it to [resolve] the wire-encoded full normalized
    name, whether the resolver sits at the name or at an ancestor; a
    single decoded value is unwrapped, several are kept as a tuple, and
    an address is put in checksum form. A zero address is not turned
    into [None] on this path. *)
Theorem resolve_with_wildcard (nm fn : string) (w : world C)
    nn r cur node ext calldata wire raw decoded :
  normalize_name C nm = Ok nn ->
  _get_resolver nn fn w = (Ok (Some r, cur), w) ->
  raw_name_to_hash C nn = Ok node ->
  fst (_resolver_supports_interface r (EXTENDED_RESOLVER_INTERFACE_ID C) w) = Ok ext ->
  truthy ext = true ->
  encodeABI C (Contract ABI_EXTENDED_RESOLVER (c_address r)) fn [PBytes node]
  = Ok calldata ->
  ens_encode_name C nn = Ok wire ->
  eth_call C (w_chain w) (Contract ABI_EXTENDED_RESOLVER (c_address r))
    "resolve" [PBytes wire; PBytes calldata] = Ok raw ->
  decode_abi C ABI_EXTENDED_RESOLVER fn raw = Ok decoded ->
  _resolve nm fn w =
  checksum_if_address (match decoded with [v] => v | _ => PTuple decoded end) w.
Proof.
  intros Hn Hg Hh Hs Ht Hc Hw Hr Hd.
  rewrite (resolve_located _ _ _ _ _ _ _ Hn Hg Hh).
  assert (Hs' : _resolver_supports_interface r (EXTENDED_RESOLVER_INTERFACE_ID C) w
                = (Ok ext, w)).
  { rewrite (read_only_eq _ w (read_only_supports _ _)). now rewrite Hs. }
  rewrite (bind_ok _ _ _ _ _ Hs'). rewrite Ht. cbv zeta.
  rewrite (bind_lift_ok _ _ _ _ Hc), (bind_lift_ok _ _ _ _ Hw).
  assert (Hr' : call (Contract ABI_EXTENDED_RESOLVER (c_address r)) "resolve"
                  [PBytes wire; PBytes calldata] w = (Ok raw, w))
    by (unfold call; now rewrite Hr).
  rewrite (bind_ok _ _ _ _ _ Hr').
  unfold _decode_ensip10_resolve_data. cbn [c_abi].
  unfold bind at 1. unfold bind at 1. unfold lift. rewrite Hd. reflexivity.
Qed.

End WalkInversion.

(** The walk for [sub.wallet.eth] on the test chain, read backwards. *)
Lemma get_resolver_located_runs :
  TestChain.w0 TestChain.genesis = TestChain.w0 TestChain.genesis /\
  exists pre post addr,
    ancestors "sub.wallet.eth" = (pre ++ "wallet.eth" :: post)%list /\
    Forall (no_resolver_at (C := TestChain.collab) TestChain.genesis) pre /\
    resolver_entry (C := TestChain.collab) TestChain.genesis "wallet.eth" = Ok addr /\
    is_none_or_zero_address addr = false /\
    Contract ABI_RESOLVER (PStr TestChain.public_resolver)
    = _type_aware_resolver addr "addr".
Proof.
  exact (get_resolver_located (C := TestChain.collab) "sub.wallet.eth" "addr"
           (TestChain.w0 TestChain.genesis) (TestChain.w0 TestChain.genesis)
           (Some (Contract ABI_RESOLVER (PStr TestChain.public_resolver)))
           "wallet.eth" eq_refl).
Defined.

(** [nothing.xyz] has no resolver up to the root. *)
Lemma resolve_unregistered_runs :
  _resolve (C := TestChain.collab) "nothing.xyz" "addr" (TestChain.w0 TestChain.genesis)
  = (Ok PNone, TestChain.w0 TestChain.genesis) /\
  address (C := TestChain.collab) "nothing.xyz" (TestChain.w0 TestChain.genesis)
  = (Ok PNone, TestChain.w0 TestChain.genesis).
Proof.
  refine (resolve_unregistered (C := TestChain.collab) "nothing.xyz" "addr"
            (TestChain.w0 TestChain.genesis) "nothing.xyz" eq_refl _).
  repeat constructor; exists TestChain.zero; split; reflexivity.
Defined.

(** [deep.sub.wild.eth] has no resolver of its own; the one at
    [wild.eth] supports the extended interface and answers for it. *)
Lemma resolve_with_wildcard_runs :
  _resolve (C := TestChain2.collab2) "deep.sub.wild.eth" "addr"
    (TestChain2.w0 TestChain2.genesis2)
  = (Ok TestChain.bob, TestChain2.w0 TestChain2.genesis2).
Proof.
  refine (eq_trans
            (resolve_with_wildcard (C := TestChain2.collab2)
               "deep.sub.wild.eth" "addr" (TestChain2.w0 TestChain2.genesis2)
               "deep.sub.wild.eth"
               (Contract ABI_RESOLVER (PStr TestChain2.wildcard_resolver))
               "wild.eth" "deep.sub.wild.eth" (PBool true) "addr"
               "deep.sub.wild.eth" TestChain.bob [TestChain.bob]
               _ _ _ _ _ _ _ _ _) _);
    reflexivity.
Defined.

(* ===================================================================== *)
(** * More about ownership *)
(* ===================================================================== *)

Lemma py_eqb_str_r s v : py_eqb v (PStr s) = true -> v = PStr s.
Proof.
  destruct v; simpl; intros H; try discriminate.
  apply String.eqb_eq in H. now subst.
Qed.

Lemma join_app_join (l1 l2 : list string) :
  l2 <> [] ->
  PyStr.join "." (l1 ++ [PyStr.join "." l2])%list = PyStr.join "." (l1 ++ l2)%list.
Proof.
  intros Hne. induction l1 as [|x l1 IH].
  - reflexivity.
  - simpl app.
    rewrite !join_cons_nonempty; [now rewrite IH| |].
    + destruct l1; [exact Hne|discriminate].
    + destruct l1; discriminate.
Qed.

Section MonadFacts2.
Context {C : Collab}.

Lemma bind_raised {A B} (m : M C A) (f : A -> M C B) w e w' :
  m w = (Raise e, w') -> bind m f w = (Raise e, w').
Proof. intros H. unfold bind. now rewrite H. Qed.

Lemma read_only_run {A} (m : M C A) w o :
  read_only m -> fst (m w) = o -> m w = (o, w).
Proof. intros R <-. now apply read_only_eq. Qed.

Lemma owner_run nm (w : world C) :
  owner nm w = (owner_entry (w_chain w) nm, w).
Proof.
  unfold owner, owner_entry, bind, lift, call.
  destruct (raw_name_to_hash C nm); reflexivity.
Qed.

Lemma read_only_requested_owner no so : read_only (requested_owner no so).
Proof. unfold requested_owner. read_only_solve. Qed.

Lemma sends_only_read_only {A} (P : sent_tx -> Prop) (m : M C A) :
  read_only m -> sends_only P m.
Proof.
  intros R w. exists []. rewrite (R w), app_nil_r. split; [reflexivity|constructor].
Qed.

Lemma sends_only_bind {A B} (P : sent_tx -> Prop) (m : M C A) (f : A -> M C B) :
  sends_only P m -> (forall a, sends_only P (f a)) -> sends_only P (bind m f).
Proof.
  intros Hm Hf w. unfold bind.
  destruct (Hm w) as (t1 & E1 & F1).
  destruct (m w) as [[a| |] w1]; simpl in E1.
  - destruct (Hf a w1) as (t2 & E2 & F2).
    exists (t1 ++ t2)%list. rewrite E2, E1, app_assoc.
    split; [reflexivity|]. apply Forall_app. now split.
  - exists t1. now split.
  - exists t1. now split.
Qed.

Lemma sends_only_transact (P : sent_tx -> Prop) c fn args params :
  P (Sent c fn args params) -> sends_only P (transact c fn args params).
Proof.
  intros HP w. exists [Sent c fn args params].
  rewrite transact_sent. split; [reflexivity|]. now constructor.
Qed.

Lemma sends_only_weaken {A} (P Q : sent_tx -> Prop) (m : M C A) :
  (forall tx, P tx -> Q tx) -> sends_only P m -> sends_only Q m.
Proof.
  intros HPQ Hm w. destruct (Hm w) as (txs & E & F).
  exists txs. split; [exact E|]. eapply Forall_impl; eauto.
Qed.

End MonadFacts2.

(** Goals [sends_only P m]: reads send nothing, binds and tests are
    taken apart, a [transact] is left to be checked against [P]. *)
Ltac sends_only_step :=
  match goal with
  | |- sends_only _ (bind _ _) => apply sends_only_bind; [|intros]
  | |- sends_only _ (if ?b then _ else _) => destruct b
  | |- sends_only _ (match ?x with _ => _ end) => destruct x
  | |- sends_only _ (transact _ _ _ _) => apply sends_only_transact
  | |- sends_only _ _ =>
      solve [apply sends_only_read_only; auto with read_only; read_only_solve]
  end.
Ltac sends_only_solve := repeat sends_only_step.

(** The same, stopping in front of the first step that is not a read. *)
Ltac sends_only_skip_read :=
  apply sends_only_bind;
  [solve [apply sends_only_read_only; auto with read_only; read_only_solve]
  |intros].
Ltac sends_only_skip_reads := repeat sends_only_skip_read.

Section Ownership2.
Context {C : Collab}.

Lemma first_owner_loop_full pieces :
  forall o u n0 (w w' : world C) o' u' n',
    is_none_or_zero_address o = true ->
    _first_owner_loop pieces o u n0 w = (Ok (o', u', n'), w') ->
    exists j,
      j <= List.length pieces /\
      u' = (u ++ firstn j pieces)%list /\
      w' = w /\
      (forall i, i < j ->
                 no_owner_at (w_chain w) (PyStr.join "." (skipn i pieces))) /\
      (is_none_or_zero_address o' = false ->
       j < List.length pieces /\
       n' = PyStr.join "." (skipn j pieces) /\
       owner_entry (w_chain w) n' = Ok o') /\
      (is_none_or_zero_address o' = true -> j = List.length pieces).
Proof.
  induction pieces as [|p rest IH]; intros o u n0 w w' o' u' n' Hz H.
  - injection H as <- <- <- <-. exists 0. rewrite app_nil_r.
    repeat split; auto; try congruence. intros i Hi. lia.
  - cbn [_first_owner_loop] in H. rewrite Hz in H. cbn [negb] in H.
    apply bind_inv_ok in H as (o1 & w1 & E1 & H).
    rewrite owner_run in E1. injection E1 as E1 <-.
    destruct (is_none_or_zero_address o1) eqn:Z1.
    + destruct (IH _ _ _ _ _ _ _ _ Z1 H) as (j & Hj & Hu & Hw & Hno & Hfound & Hall).
      exists (S j). split; [simpl; lia|]. split.
      { rewrite Hu, <- app_assoc. reflexivity. }
      split; [exact Hw|]. split; [|split].
      * intros [|i] Hi.
        -- exists o1. now split.
        -- apply Hno. lia.
      * intros Ho. destruct (Hfound Ho) as (Hlt & Hn & He).
        repeat split; auto. simpl. lia.
      * intros Ho. simpl. now rewrite (Hall Ho).
    + injection H as <- <- <- <-. exists 0. rewrite app_nil_r.
      split; [lia|]. split; [reflexivity|]. split; [reflexivity|].
      split; [intros i Hi; lia|]. split.
      * intros _. split; [simpl; lia|]. split; [reflexivity|exact E1].
      * congruence.
Qed.

(** X6. [_first_owner] finds the deepest owned ancestor. It only reads;
    every name it skipped, from the name itself down to the last label
    it lists as unowned, has no owner in the registry; when it ends on
    an owner, that is the registry's owner of the owned name, and the
    unowned labels followed by the owned name spell the normalized name;
    when it ends without an owner, every label of the name is unowned. *)
Theorem first_owner_deepest (nm nn : string) (w w' : world C)
    (o : pyval) (unowned : list string) (owned : string) :
  normalize_name C nm = Ok nn ->
  _first_owner nm w = (Ok (o, unowned, owned), w') ->
  w' = w /\
  (forall i, i < List.length unowned ->
             no_owner_at (w_chain w) (PyStr.join "." (skipn i (labels_of nn)))) /\
  (is_none_or_zero_address o = false ->
   owner_entry (w_chain w) owned = Ok o /\
   PyStr.join "." (unowned ++ [owned])%list = nn) /\
  (is_none_or_zero_address o = true -> unowned = labels_of nn).
Proof.
  intros Hn H. unfold _first_owner in H.
  rewrite (bind_lift_ok _ _ _ _ Hn) in H.
  destruct (first_owner_loop_full _ PNone _ _ _ _ _ _ _ eq_refl H)
    as (j & Hj & Hu & Hw & Hno & Hfound & Hall).
  fold (labels_of nn) in *. simpl in Hu.
  assert (Hlen : List.length unowned = j).
  { rewrite Hu, length_firstn. lia. }
  split; [exact Hw|]. split; [|split].
  - intros i Hi. apply Hno. lia.
  - intros Ho. destruct (Hfound Ho) as (Hlt & Howned & He).
    split; [exact He|]. rewrite Hu, Howned.
    rewrite join_app_join.
    + rewrite firstn_skipn. apply PyStrFacts.join_split.
    + intros E. apply (f_equal (@List.length string)) in E.
      rewrite length_skipn in E. simpl in E. lia.
  - intros Ho. rewrite Hu, (Hall Ho). apply firstn_all.
Qed.

Lemma setup_owner_unfold nm no params :
  setup_owner nm no params =
  (fo <- _first_owner nm ;;
   let '(super_owner, unowned, owned) := fo in
   new_owner <- requested_owner no super_owner ;;
   current_owner <- owner nm ;;
   if py_eqb new_owner (PStr EMPTY_ADDR_HEX) && negb (truthy current_owner)
   then ret PNone
   else if py_eqb current_owner new_owner then ret current_owner
   else
     _assert_control super_owner ;;;
     _claim_ownership new_owner unowned owned super_owner params ;;;
     ret new_owner).
Proof. reflexivity. Qed.

(** [setup_owner] up to its three-way test. *)
Lemma setup_owner_steps nm no params (w : world C) so unowned owned target cur :
  fst (_first_owner nm w) = Ok (so, unowned, owned) ->
  fst (requested_owner no so w) = Ok target ->
  fst (owner nm w) = Ok cur ->
  setup_owner nm no params w =
  (if py_eqb target (PStr EMPTY_ADDR_HEX) && negb (truthy cur)
   then ret PNone
   else if py_eqb cur target then ret cur
   else
     _assert_control so ;;;
     _claim_ownership target unowned owned so params ;;;
     ret target) w.
Proof.
  intros Hf Ht Ho. rewrite setup_owner_unfold.
  rewrite (bind_ok _ _ _ _ _ (read_only_run _ _ _ (read_only_first_owner _) Hf)).
  cbv beta iota.
  rewrite (bind_ok _ _ _ _ _ (read_only_run _ _ _ (read_only_requested_owner _ _) Ht)).
  rewrite (bind_ok _ _ _ _ _ (read_only_run _ _ _ (read_only_owner _) Ho)).
  reflexivity.
Qed.

(** X7. When the current owner of the name already is the requested
    owner, [setup_owner] returns it at once: no transaction, and no
    check that the caller controls anything. *)
Theorem setup_owner_already_owned (nm : string) (no : arg) (params : txparams)
    (w : world C) so unowned owned target cur :
  fst (_first_owner nm w) = Ok (so, unowned, owned) ->
  fst (requested_owner no so w) = Ok target ->
  fst (owner nm w) = Ok cur ->
  py_eqb cur target = true ->
  setup_owner nm no params w = (Ok cur, w).
Proof.
  intros Hf Ht Ho He.
  rewrite (setup_owner_steps _ _ _ _ _ _ _ _ _ Hf Ht Ho).
  destruct (py_eqb target (PStr EMPTY_ADDR_HEX) && negb (truthy cur)) eqn:B.
  - apply andb_true_iff in B as [B1 B2].
    apply py_eqb_str_r in B1. subst target.
    apply py_eqb_str_r in He. subst cur. discriminate.
  - rewrite He. reflexivity.
Qed.

(** X8. When ownership has to change and the caller does not control
    the owner of the first owned ancestor, [setup_owner] raises
    [UnauthorizedError] before submitting anything. *)
Theorem setup_owner_unauthorized (nm : string) (no : arg) (params : txparams)
    (w : world C) so unowned owned target cur accts :
  fst (_first_owner nm w) = Ok (so, unowned, owned) ->
  fst (requested_owner no so w) = Ok target ->
  fst (owner nm w) = Ok cur ->
  py_eqb cur target = false ->
  is_none_or_zero_address cur = false \/ target <> PStr EMPTY_ADDR_HEX ->
  eth_accounts C (w_chain w) = Ok accts ->
  address_in C so accts = Ok false ->
  setup_owner nm no params w = (Raise UnauthorizedError, w).
Proof.
  intros Hf Ht Ho He Hb Ha Hin.
  rewrite (setup_owner_steps _ _ _ _ _ _ _ _ _ Hf Ht Ho).
  assert (B : py_eqb target (PStr EMPTY_ADDR_HEX) && negb (truthy cur) = false).
  { destruct (py_eqb target (PStr EMPTY_ADDR_HEX)) eqn:B1; [|reflexivity].
    apply py_eqb_str_r in B1. destruct Hb as [Hb|Hb]; [|congruence].
    unfold is_none_or_zero_address in Hb. apply orb_false_iff in Hb as [Hb _].
    simpl. now rewrite Hb. }
  rewrite B, He.
  apply bind_raised. unfold _assert_control.
  assert (Ha' : accounts w = (Ok accts, w)) by (unfold accounts; now rewrite Ha).
  rewrite (bind_ok _ _ _ _ _ Ha'), (bind_lift_ok _ _ _ _ Hin). reflexivity.
Qed.

End Ownership2.

(** [a.b.c.eth] on the test chain: [a.b.c.eth] and [b.c.eth] have no
    owner, [c.eth] is alice's. *)
Lemma first_owner_deepest_runs :
  TestChain.w0 TestChain.genesis = TestChain.w0 TestChain.genesis /\
  (forall i, i < 2 ->
     no_owner_at (C := TestChain.collab) TestChain.genesis
       (PyStr.join "." (skipn i (labels_of "a.b.c.eth")))) /\
  (is_none_or_zero_address TestChain.alice = false ->
   owner_entry (C := TestChain.collab) TestChain.genesis "c.eth" = Ok TestChain.alice /\
   PyStr.join "." (["a"; "b"] ++ ["c.eth"])%list = "a.b.c.eth") /\
  (is_none_or_zero_address TestChain.alice = true ->
   ["a"; "b"] = labels_of "a.b.c.eth").
Proof.
  exact (first_owner_deepest (C := TestChain.collab) "a.b.c.eth" "a.b.c.eth"
           (TestChain.w0 TestChain.genesis) (TestChain.w0 TestChain.genesis)
           TestChain.alice ["a"; "b"] "c.eth" eq_refl eq_refl).
Defined.

(** [wallet.eth] is alice's already: a client that controls no account
    at all gets alice back and submits nothing. *)
Lemma setup_owner_already_owned_runs :
  setup_owner (C := TestChain.collab) "wallet.eth" Default []
    (TestChain.w0 (TestChain2.with_accounts TestChain.genesis []))
  = (Ok TestChain.alice,
     TestChain.w0 (TestChain2.with_accounts TestChain.genesis [])).
Proof.
  refine (setup_owner_already_owned (C := TestChain.collab) "wallet.eth" Default []
            _ TestChain.alice [] "wallet.eth" TestChain.alice TestChain.alice
            _ _ _ _); reflexivity.
Defined.

(** Bob asks for [a.b.c.eth], under alice's [c.eth]. *)
Lemma setup_owner_unauthorized_runs :
  setup_owner (C := TestChain.collab) "a.b.c.eth" (Given TestChain.bob) []
    (TestChain.w0 (TestChain2.with_accounts TestChain.genesis [TestChain.bob]))
  = (Raise UnauthorizedError,
     TestChain.w0 (TestChain2.with_accounts TestChain.genesis [TestChain.bob])).
Proof.
  refine (setup_owner_unauthorized (C := TestChain.collab) "a.b.c.eth"
            (Given TestChain.bob) [] _ TestChain.alice ["a"; "b"] "c.eth"
            TestChain.bob TestChain.zero [TestChain.bob] _ _ _ _ _ _ _);
    try reflexivity.
  right. discriminate.
Defined.

(* ===================================================================== *)
(** * What the setup methods submit *)
(* ===================================================================== *)

Section Footprint.
Context {C : Collab}.
Variable REVERSE_REGISTRAR_DOMAIN : string.

(** When [m] returns a value, the value satisfies [Q]. *)
Let returns {A} (Q : A -> Prop) (m : M C A) : Prop :=
  forall w a w', m w = (Ok a, w') -> Q a.

Lemma sends_only_bind_post {A B} (P : sent_tx -> Prop) (Q : A -> Prop)
    (m : M C A) (f : A -> M C B) :
  returns Q m -> sends_only P m -> (forall a, Q a -> sends_only P (f a)) ->
  sends_only P (bind m f).
Proof.
  intros HQ Hm Hf w. unfold bind.
  destruct (Hm w) as (t1 & E1 & F1).
  destruct (m w) as [[a| |] w1] eqn:E; simpl in E1.
  - destruct (Hf a (HQ _ _ _ E) w1) as (t2 & E2 & F2).
    exists (t1 ++ t2)%list. rewrite E2, E1, app_assoc.
    split; [reflexivity|]. apply Forall_app. now split.
  - exists t1. now split.
  - exists t1. now split.
Qed.

Lemma claim_loop_sends owner_ params labels :
  forall owned, sends_only (to_registry "setSubnodeOwner")
                  (_claim_loop owner_ labels owned params).
Proof.
  induction labels as [|l rest IH]; intros owned; cbn [_claim_loop].
  - sends_only_solve.
  - sends_only_solve; [split; reflexivity|apply IH].
Qed.

Lemma setup_owner_sends nm no params :
  sends_only (to_registry "setSubnodeOwner") (setup_owner nm no params).
Proof.
  rewrite setup_owner_unfold.
  apply sends_only_bind; [sends_only_solve|]. intros [[so unowned] owned].
  apply sends_only_bind;
    [apply sends_only_read_only, read_only_requested_owner|]. intros target.
  sends_only_solve. apply claim_loop_sends.
Qed.

Lemma set_resolver_returns nm ra params :
  returns (fun r => c_abi r = ABI_RESOLVER) (_set_resolver nm ra params).
Proof.
  intros w r w' H. unfold _set_resolver in H.
  apply bind_inv_ok in H as (ra' & w1 & _ & H).
  apply bind_inv_ok in H as (nh & w2 & _ & H).
  apply bind_inv_ok in H as (cur & w3 & _ & H).
  apply bind_inv_ok in H as (u & w4 & _ & H).
  injection H as <- _. reflexivity.
Qed.

Lemma set_resolver_sends nm ra params :
  sends_only (to_registry "setResolver") (_set_resolver nm ra params).
Proof. unfold _set_resolver. sends_only_solve. split; reflexivity. Qed.

Lemma setup_address_sends nm a params :
  sends_only address_setup_tx (setup_address nm a params).
Proof.
  unfold setup_address.
  apply sends_only_bind.
  { eapply sends_only_weaken; [|apply setup_owner_sends]. intros tx H. now left. }
  intros owner_. sends_only_skip_reads.
  destruct (py_eqb a2 a1); [sends_only_solve|].
  eapply sends_only_bind_post; [apply set_resolver_returns| |].
  - eapply sends_only_weaken; [|apply set_resolver_sends].
    intros tx H. right. now left.
  - intros r Hr. sends_only_solve. right. right. split; [exact Hr|reflexivity].
Qed.

Lemma reverse_registrar_returns :
  returns (fun r => c_abi r = ABI_REVERSE_REGISTRAR)
    (_reverse_registrar REVERSE_REGISTRAR_DOMAIN).
Proof.
  intros w r w' H. unfold _reverse_registrar in H.
  apply bind_inv_ok in H as (nh & w1 & _ & H).
  apply bind_inv_ok in H as (addr & w2 & _ & H).
  injection H as <- _. reflexivity.
Qed.

Lemma setup_reverse_sends nm addr params :
  sends_only (to_reverse_registrar "setName")
    (_setup_reverse REVERSE_REGISTRAR_DOMAIN nm addr params).
Proof.
  unfold _setup_reverse.
  apply sends_only_bind; [sends_only_solve|]. intros n.
  eapply sends_only_bind_post; [apply reverse_registrar_returns| |].
  - apply sends_only_read_only. unfold _reverse_registrar. read_only_solve.
  - intros r Hr. sends_only_solve. split; [exact Hr|reflexivity].
Qed.

Lemma setup_name_sends nm addr params :
  sends_only name_setup_tx (setup_name REVERSE_REGISTRAR_DOMAIN nm addr params).
Proof.
  unfold setup_name. destruct (String.eqb nm "").
  - apply sends_only_bind; [sends_only_solve|]. intros _.
    eapply sends_only_weaken; [|apply setup_reverse_sends]. intros tx H. now right.
  - sends_only_skip_reads.
    apply sends_only_bind.
    { destruct (negb (truthy a)); [|sends_only_solve].
      apply sends_only_bind; [|intros; sends_only_solve].
      eapply sends_only_weaken; [|apply setup_address_sends]. intros tx H. now left. }
    intros _.
    eapply sends_only_weaken; [|apply setup_reverse_sends]. intros tx H. now right.
Qed.

Lemma resolver_returns nm :
  returns (fun r => match r with
                    | Some r => c_abi r = ABI_RESOLVER
                    | None => True
                    end) (resolver nm).
Proof.
  intros w r w' H. unfold resolver in H.
  apply bind_inv_ok in H as (nn & w1 & _ & H).
  apply bind_inv_ok in H as ([res cur] & w2 & E & H).
  injection H as <- _.
  apply loop_inversion in E; [|lia]. destruct E as [_ E].
  destruct res as [r|]; [|exact I].
  destruct E as (pre & post & addr & _ & _ & _ & _ & ->). reflexivity.
Qed.

Lemma set_text_sends nm key value params :
  sends_only (to_resolver "setText") (set_text nm key value params).
Proof.
  unfold set_text.
  do 3 sends_only_skip_read.
  eapply sends_only_bind_post; [apply resolver_returns|sends_only_solve|].
  intros [r|] Hr; sends_only_solve. split; [exact Hr|reflexivity].
Qed.

(** X9. Whatever their outcome, returned or raised, the setup methods
    submit nothing but their own kind of transaction: [setup_owner] only
    subnode claims to the registry; [setup_address] only those, a
    [setResolver] to the registry and a [setAddr] to a resolver;
    [setup_name] only those and a [setName] to the reverse registrar;
    [set_text] only a [setText] to a resolver. *)
Theorem transaction_footprint (nm key value : string) (no a : arg)
    (addr : pyval) (params : txparams) :
  sends_only (to_registry "setSubnodeOwner") (setup_owner nm no params) /\
  sends_only address_setup_tx (setup_address nm a params) /\
  sends_only name_setup_tx (setup_name REVERSE_REGISTRAR_DOMAIN nm addr params) /\
  sends_only (to_resolver "setText") (set_text nm key value params).
Proof.
  repeat split.
  - apply setup_owner_sends.
  - apply setup_address_sends.
  - apply setup_name_sends.
  - apply set_text_sends.
Qed.

End Footprint.

(* ===================================================================== *)
(** * More about [_set_resolver] and [setup_address] *)
(* ===================================================================== *)

Section SetupAddress.
Context {C : Collab}.

(** X10. [_set_resolver] points the name at the given resolver, or at
    the address of [resolver.eth] when none is given. If the registry
    already has that resolver for the name it submits nothing;
    otherwise it submits exactly one [setResolver] for the name's node,
    and a refusal of that transaction is raised. When it returns, it
    returns the resolver contract at that address. *)
Theorem set_resolver_spec (nm : string) (given : pyval) (params : txparams)
    (w : world C) (ra : pyval) (nh : string) (cur : pyval) :
  (is_none_or_zero_address given = true ->
   fst (address "resolver.eth" w) = Ok ra) ->
  (is_none_or_zero_address given = false -> ra = given) ->
  raw_name_to_hash C nm = Ok nh ->
  eth_call C (w_chain w) ens "resolver" [PBytes nh] = Ok cur ->
  (py_eqb cur ra = true ->
   _set_resolver nm given params w = (Ok (_resolver_contract ra), w)) /\
  (py_eqb cur ra = false ->
   w_sent (snd (_set_resolver nm given params w))
   = (w_sent w ++ [Sent ens "setResolver" [PBytes nh; ra] params])%list /\
   fst (_set_resolver nm given params w)
   = match fst (eth_transact C (w_chain w) ens "setResolver" [PBytes nh; ra] params) with
     | Ok _ => Ok (_resolver_contract ra)
     | Raise e => Raise e
     | OutOfFuel => OutOfFuel
     end).
Proof.
  intros Hz Hnz Hh Hc.
  assert (H1 : (if is_none_or_zero_address given
                then address "resolver.eth" else ret given) w = (Ok ra, w)).
  { destruct (is_none_or_zero_address given).
    - apply read_only_run; [apply read_only_address|now apply Hz].
    - now rewrite (Hnz eq_refl). }
  assert (Hc' : call ens "resolver" [PBytes nh] w = (Ok cur, w))
    by (unfold call; now rewrite Hc).
  unfold _set_resolver.
  rewrite (bind_ok _ _ _ _ _ H1), (bind_lift_ok _ _ _ _ Hh), (bind_ok _ _ _ _ _ Hc').
  split; intros E; rewrite E; cbn [negb].
  - reflexivity.
  - unfold bind, transact, ret.
    destruct (eth_transact C (w_chain w) ens "setResolver" [PBytes nh; ra] params)
      as [[h|e|] ch]; split; reflexivity.
Qed.

(** X11. When the address has to change, [setup_address] ends with one
    [setAddr] on the resolver that [_set_resolver] returned, for the
    name's node, sent from the owner; asked to clear the record, it
    writes the zero address. Its outcome is the outcome of that
    transaction. *)
Theorem setup_address_sets (nm : string) (a : arg) (params : txparams)
    (w w1 w2 : world C) (owner_ target cur : pyval) (r : contract)
    (node : string) :
  setup_owner nm Default params w = (Ok owner_, w1) ->
  fst (_assert_control owner_ w1) = Ok tt ->
  fst (target_address a owner_ w1) = Ok target ->
  fst (address nm w1) = Ok cur ->
  py_eqb cur target = false ->
  _set_resolver nm PNone (set_item params "from" owner_) w1 = (Ok r, w2) ->
  raw_name_to_hash C nm = Ok node ->
  let written := match target with PNone => PStr EMPTY_ADDR_HEX | _ => target end in
  let tx := Sent r "setAddr" [PBytes node; written] (set_item params "from" owner_) in
  w_sent (snd (setup_address nm a params w)) = (w_sent w2 ++ [tx])%list /\
  fst (setup_address nm a params w)
  = fst (eth_transact C (w_chain w2) r "setAddr" [PBytes node; written]
           (set_item params "from" owner_)).
Proof.
  intros Ho Hc Ht Ha He Hr Hh written tx.
  assert (E : setup_address nm a params w
              = transact r "setAddr" [PBytes node; written]
                  (set_item params "from" owner_) w2).
  { unfold setup_address.
    rewrite (bind_ok _ _ _ _ _ Ho).
    rewrite (bind_ok _ _ _ _ _
               (read_only_run _ _ _ (read_only_assert_control _) Hc)).
    rewrite (bind_ok _ _ _ _ _
               (read_only_run _ _ _ (read_only_target_address _ _) Ht)).
    rewrite (bind_ok _ _ _ _ _ (read_only_run _ _ _ (read_only_address _) Ha)).
    rewrite He. cbv zeta.
    rewrite (bind_ok _ _ _ _ _ Hr), (bind_lift_ok _ _ _ _ Hh). reflexivity. }
  rewrite E. split.
  - apply transact_sent.
  - unfold transact.
    destruct (eth_transact C (w_chain w2) r "setAddr" [PBytes node; written]
                (set_item params "from" owner_)). reflexivity.
Qed.

(** X12. [setup_address] checks control and the form of the address
    only after the ownership step. If the caller does not control the
    owner it raises [UnauthorizedError], and if the address is neither
    empty, nor binary, nor in checksum form it raises [ValueError]; in
    both cases the subnode claims of the ownership step stay submitted
    and nothing else is. *)
Theorem setup_address_rejects (nm : string) (a : arg) (params : txparams)
    (w w1 : world C) (owner_ : pyval) :
  setup_owner nm Default params w = (Ok owner_, w1) ->
  (fst (_assert_control owner_ w1) = Raise UnauthorizedError ->
   setup_address nm a params w = (Raise UnauthorizedError, w1)) /\
  (fst (_assert_control owner_ w1) = Ok tt ->
   forall v,
     a = Given v ->
     is_none_or_zero_address v = false ->
     is_binary_address C v = false ->
     is_checksum_address C v = false ->
     setup_address nm a params w = (Raise ValueError, w1)).
Proof.
  intros Ho. split.
  - intros Hc. unfold setup_address. rewrite (bind_ok _ _ _ _ _ Ho).
    apply bind_raised. apply read_only_run; [apply read_only_assert_control|exact Hc].
  - intros Hc v -> Hz Hb Hk. unfold setup_address.
    rewrite (bind_ok _ _ _ _ _ Ho).
    rewrite (bind_ok _ _ _ _ _
               (read_only_run _ _ _ (read_only_assert_control _) Hc)).
    apply bind_raised. unfold target_address. rewrite Hz, Hb, Hk. reflexivity.
Qed.

End SetupAddress.

(** [legacy.eth] points at the old resolver; asked for the default, the
    registry is told to use the public resolver. [wallet.eth] already
    uses it. *)
Lemma set_resolver_spec_runs :
  _set_resolver (C := TestChain.collab) "wallet.eth" PNone []
    (TestChain.w0 TestChain.genesis)
  = (Ok (Contract ABI_RESOLVER (PStr TestChain.public_resolver)),
     TestChain.w0 TestChain.genesis) /\
  map tx_args
    (w_sent (snd (_set_resolver (C := TestChain.collab) "legacy.eth" PNone []
                    (TestChain.w0 TestChain.genesis))))
  = [[PBytes "legacy.eth"; PStr TestChain.public_resolver]].
Proof.
  split.
  - refine (proj1 (set_resolver_spec (C := TestChain.collab) "wallet.eth" PNone []
                     (TestChain.w0 TestChain.genesis)
                     (PStr TestChain.public_resolver) "wallet.eth"
                     (PStr TestChain.public_resolver) _ _ _ _) _);
      try reflexivity.
    discriminate.
  - rewrite (proj1 (proj2 (set_resolver_spec (C := TestChain.collab) "legacy.eth"
                              PNone [] (TestChain.w0 TestChain.genesis)
                              (PStr TestChain.public_resolver) "legacy.eth"
                              (PStr TestChain.old_resolver)
                              (fun _ => eq_refl)
                              (fun H => False_ind _ (Bool.diff_true_false H))
                              eq_refl eq_refl) eq_refl)).
    reflexivity.
Defined.

(** Alice clears the address of [wallet.eth]: one [setAddr] of the zero
    address, from alice, on the public resolver. *)
Lemma setup_address_sets_runs :
  w_sent (snd (setup_address (C := TestChain.collab) "wallet.eth" (Given PNone) []
                 (TestChain.w0 TestChain.genesis)))
  = [Sent (Contract ABI_RESOLVER (PStr TestChain.public_resolver)) "setAddr"
       [PBytes "wallet.eth"; PStr EMPTY_ADDR_HEX] [("from", TestChain.alice)]].
Proof.
  refine (proj1 (setup_address_sets (C := TestChain.collab) "wallet.eth"
                   (Given PNone) [] (TestChain.w0 TestChain.genesis)
                   (TestChain.w0 TestChain.genesis) (TestChain.w0 TestChain.genesis)
                   TestChain.alice PNone TestChain.alice
                   (Contract ABI_RESOLVER (PStr TestChain.public_resolver))
                   "wallet.eth" _ _ _ _ _ _ _));
    reflexivity.
Defined.

(** An address that is not in checksum form is refused after the two
    claims for [a.b.c.eth] have been submitted. *)
Lemma setup_address_rejects_runs :
  fst (setup_address (C := TestChain.collab) "a.b.c.eth" (Given (PStr "0xabc")) []
         (TestChain.w0 TestChain.genesis))
  = Raise ValueError /\
  map tx_fn
    (w_sent (snd (setup_address (C := TestChain.collab) "a.b.c.eth"
                    (Given (PStr "0xabc")) [] (TestChain.w0 TestChain.genesis))))
  = ["setSubnodeOwner"; "setSubnodeOwner"].
Proof.
  pose proof (proj2 (setup_address_rejects (C := TestChain.collab) "a.b.c.eth"
                       (Given (PStr "0xabc")) [] (TestChain.w0 TestChain.genesis)
                       _ TestChain.alice eq_refl)
                eq_refl (PStr "0xabc") eq_refl eq_refl eq_refl eq_refl) as E.
  rewrite E. split; reflexivity.
Defined.

(* ===================================================================== *)
(** * Transaction dicts *)
(* ===================================================================== *)

Lemma get_set_item_same d k v : get_item (set_item d k v) k = Some v.
Proof.
  induction d as [|[k' v'] d IH]; simpl.
  - now rewrite String.eqb_refl.
  - destruct (String.eqb k' k) eqn:E; simpl.
    + now rewrite String.eqb_refl.
    + now rewrite E.
Qed.

Lemma get_set_item_other d k v k' :
  k' <> k -> get_item (set_item d k v) k' = get_item d k'.
Proof.
  intros Hne. induction d as [|[k0 v0] d IH]; simpl.
  - destruct (String.eqb_spec k k'); [congruence|reflexivity].
  - destruct (String.eqb_spec k0 k) as [->|Hk]; simpl.
    + destruct (String.eqb_spec k k'); [congruence|reflexivity].
    + destruct (String.eqb_spec k0 k'); [reflexivity|exact IH].
Qed.

Lemma get_item_not_in d k : ~ In k (map fst d) -> get_item d k = None.
Proof.
  induction d as [|[k' v'] d IH]; simpl; intros H; [reflexivity|].
  destruct (String.eqb_spec k' k) as [->|]; [tauto|]. apply IH. tauto.
Qed.

(** In a merge the second dict wins, key by key. *)
Lemma merge_get d2 :
  forall d1 k,
    NoDup (map fst d2) ->
    get_item (merge d1 d2) k =
    match get_item d2 k with Some v => Some v | None => get_item d1 k end.
Proof.
  unfold merge. induction d2 as [|[k2 v2] d2 IH]; intros d1 k Hnd; [reflexivity|].
  simpl in Hnd. inversion Hnd as [|? ? Hnin Hnd']; subst.
  simpl fold_left. rewrite IH by exact Hnd'. simpl get_item.
  destruct (String.eqb_spec k2 k) as [->|Hne].
  - rewrite (get_item_not_in _ _ Hnin). apply get_set_item_same.
  - destruct (get_item d2 k); [reflexivity|].
    apply get_set_item_other. congruence.
Qed.

(* ===================================================================== *)
(** * Reverse records and text records *)
(* ===================================================================== *)

Section ReverseRecords.
Context {C : Collab}.
Variable REVERSE_REGISTRAR_DOMAIN : string.

(** [_setup_reverse] once the name is normalized and the registrar read. *)
Lemma setup_reverse_run (nmo : option string) (n : string) (addr : pyval)
    (params : txparams) (w : world C) (rnode : string) (raddr : pyval) :
  match nmo with
  | Some nm => if String.eqb nm "" then n = "" else normalize_name C nm = Ok n
  | None => n = ""
  end ->
  normal_name_to_hash C REVERSE_REGISTRAR_DOMAIN = Ok rnode ->
  eth_call C (w_chain w) ens "owner" [PBytes rnode] = Ok raddr ->
  _setup_reverse REVERSE_REGISTRAR_DOMAIN nmo addr params w =
  transact (Contract ABI_REVERSE_REGISTRAR raddr) "setName" [PStr n]
    (set_item params "from" addr) w.
Proof.
  intros Hn Hh Hc. unfold _setup_reverse.
  assert (H1 : match nmo with
               | Some n0 => if String.eqb n0 "" then ret "" else lift (normalize_name C n0)
               | None => ret ""
               end w = (Ok n, w)).
  { destruct nmo as [nm|]; [|now subst].
    destruct (String.eqb nm ""); [now subst|]. unfold lift. now rewrite Hn. }
  rewrite (bind_ok _ _ _ _ _ H1). cbv zeta.
  assert (H2 : _reverse_registrar REVERSE_REGISTRAR_DOMAIN w
               = (Ok (Contract ABI_REVERSE_REGISTRAR raddr), w)).
  { unfold _reverse_registrar. rewrite (bind_lift_ok _ _ _ _ Hh).
    assert (Hc' : call ens "owner" [PBytes rnode] w = (Ok raddr, w))
      by (unfold call; now rewrite Hc).
    rewrite (bind_ok _ _ _ _ _ Hc'). reflexivity. }
  rewrite (bind_ok _ _ _ _ _ H2). reflexivity.
Qed.

Lemma transact_run c fn args params (w : world C) :
  w_sent (snd (transact c fn args params w))
  = (w_sent w ++ [Sent c fn args params])%list /\
  fst (transact c fn args params w)
  = fst (eth_transact C (w_chain w) c fn args params).
Proof.
  split; [apply transact_sent|]. unfold transact.
  destruct (eth_transact C (w_chain w) c fn args params). reflexivity.
Qed.

(** X13. [setup_name] with the empty name clears the reverse record of
    [address]: unless the caller controls that address it raises
    [UnauthorizedError] and submits nothing; otherwise it submits one
    [setName("")] to the owner of the reverse-registrar domain, sent
    from [address], and its outcome is the outcome of that transaction. *)
Theorem setup_name_clears (addr : pyval) (params : txparams) (w : world C) :
  (fst (_assert_control addr w) = Raise UnauthorizedError ->
   setup_name REVERSE_REGISTRAR_DOMAIN "" addr params w = (Raise UnauthorizedError, w)) /\
  (fst (_assert_control addr w) = Ok tt ->
   forall rnode raddr,
     normal_name_to_hash C REVERSE_REGISTRAR_DOMAIN = Ok rnode ->
     eth_call C (w_chain w) ens "owner" [PBytes rnode] = Ok raddr ->
     let registrar := Contract ABI_REVERSE_REGISTRAR raddr in
     let params' := set_item params "from" addr in
     w_sent (snd (setup_name REVERSE_REGISTRAR_DOMAIN "" addr params w))
     = (w_sent w ++ [Sent registrar "setName" [PStr ""] params'])%list /\
     fst (setup_name REVERSE_REGISTRAR_DOMAIN "" addr params w)
     = fst (eth_transact C (w_chain w) registrar "setName" [PStr ""] params')).
Proof.
  split.
  - intros Hc. unfold setup_name. cbn [String.eqb]. apply bind_raised.
    apply read_only_run; [apply read_only_assert_control|exact Hc].
  - intros Hc rnode raddr Hh Ho registrar params'.
    unfold setup_name. cbn [String.eqb].
    rewrite (bind_ok _ _ _ _ _
               (read_only_run _ _ _ (read_only_assert_control _) Hc)).
    rewrite (setup_reverse_run None "" addr params w rnode raddr eq_refl Hh Ho).
    apply transact_run.
Qed.

(** X14. For a name that resolves, [setup_name] refuses an explicit
    address that differs from the resolution with [AddressMismatch];
    for a name that neither resolves nor has an owner, and no address
    given, it raises [UnownedName]. Both before any transaction. *)
Theorem setup_name_rejects (nm : string) (addr : pyval) (params : txparams)
    (w : world C) (resolved : pyval) :
  nm <> "" ->
  fst (address nm w) = Ok resolved ->
  (is_none_or_zero_address addr = false ->
   is_none_or_zero_address resolved = false ->
   py_eqb addr resolved = false ->
   setup_name REVERSE_REGISTRAR_DOMAIN nm addr params w = (Raise AddressMismatch, w)) /\
  (is_none_or_zero_address addr = true ->
   is_none_or_zero_address resolved = true ->
   forall o,
     fst (owner nm w) = Ok o ->
     is_none_or_zero_address o = true ->
     setup_name REVERSE_REGISTRAR_DOMAIN nm addr params w = (Raise UnownedName, w)).
Proof.
  intros Hne Ha. apply String.eqb_neq in Hne.
  pose proof (read_only_run _ _ _ (read_only_address nm) Ha) as Ha'.
  unfold setup_name. rewrite Hne. rewrite (bind_ok _ _ _ _ _ Ha').
  split.
  - intros Hz Hr He. rewrite Hz, He.
    unfold is_none_or_zero_address in Hr. apply orb_false_iff in Hr as [Hr1 Hr2].
    apply negb_false_iff in Hr1. rewrite Hr1, Hr2. reflexivity.
  - intros Hz Hr o Ho Hoz. rewrite Hz.
    rewrite (bind_ok _ _ _ _ _ (eq_refl : ret resolved w = _)). rewrite Hr.
    rewrite (bind_ok _ _ _ _ _ (read_only_run _ _ _ (read_only_owner nm) Ho)).
    rewrite Hoz. reflexivity.
Qed.

(** X15. For a name that already resolves to a checksum address the
    caller controls, [setup_name] with that address, or with none,
    submits exactly one transaction: [setName] of the normalized name to
    the reverse registrar, sent from that address. The forward record is
    left alone. *)
Theorem setup_name_of_resolved (nm : string) (addr : pyval) (params : txparams)
    (w : world C) (a nn rnode : string) (raddr : pyval) :
  nm <> "" ->
  fst (address nm w) = Ok (PStr a) ->
  is_none_or_zero_address (PStr a) = false ->
  is_none_or_zero_address addr = true \/ addr = PStr a ->
  is_binary_address C (PStr a) = false ->
  is_checksum_address C (PStr a) = true ->
  fst (_assert_control (PStr a) w) = Ok tt ->
  normalize_name C nm = Ok nn ->
  normal_name_to_hash C REVERSE_REGISTRAR_DOMAIN = Ok rnode ->
  eth_call C (w_chain w) ens "owner" [PBytes rnode] = Ok raddr ->
  let registrar := Contract ABI_REVERSE_REGISTRAR raddr in
  let params' := set_item params "from" (PStr a) in
  w_sent (snd (setup_name REVERSE_REGISTRAR_DOMAIN nm addr params w))
  = (w_sent w ++ [Sent registrar "setName" [PStr nn] params'])%list /\
  fst (setup_name REVERSE_REGISTRAR_DOMAIN nm addr params w)
  = fst (eth_transact C (w_chain w) registrar "setName" [PStr nn] params').
Proof.
  intros Hne Ha Hr Haddr Hb Hk Hc Hn Hh Ho registrar params'.
  pose proof Hne as Hne'. apply String.eqb_neq in Hne'.
  pose proof (read_only_run _ _ _ (read_only_address nm) Ha) as Ha'.
  assert (Hr' := Hr). unfold is_none_or_zero_address in Hr'.
  apply orb_false_iff in Hr' as [Hr1 Hr2]. apply negb_false_iff in Hr1.
  unfold setup_name. rewrite Hne'. rewrite (bind_ok _ _ _ _ _ Ha').
  assert (H1 : (if is_none_or_zero_address addr then ret (PStr a)
                else if truthy (PStr a) && negb (py_eqb addr (PStr a))
                        && negb (py_eqb (PStr a) (PStr EMPTY_ADDR_HEX))
                then raise AddressMismatch else ret addr) w = (Ok (PStr a), w)).
  { destruct (is_none_or_zero_address addr) eqn:Z; [reflexivity|].
    destruct Haddr as [Haddr| ->]; [congruence|].
    cbn [py_eqb]. rewrite String.eqb_refl, andb_false_r. reflexivity. }
  rewrite (bind_ok _ _ _ _ _ H1). rewrite Hr.
  rewrite (bind_ok _ _ _ _ _ (eq_refl : ret (PStr a) w = _)). rewrite Hr.
  rewrite (bind_ok _ _ _ _ _ (eq_refl : ret tt w = _)). rewrite Hb.
  rewrite (bind_ok _ _ _ _ _ (eq_refl : ret (PStr a) w = _)). rewrite Hk.
  cbn [negb].
  rewrite (bind_ok _ _ _ _ _ (eq_refl : ret tt w = _)).
  rewrite (bind_ok _ _ _ _ _
             (read_only_run _ _ _ (read_only_assert_control _) Hc)).
  rewrite Hr1. cbn [negb].
  rewrite (bind_ok _ _ _ _ _ (eq_refl : ret tt w = _)).
  rewrite (setup_reverse_run (Some nm) nn (PStr a) params w rnode raddr); auto.
  - apply transact_run.
  - now rewrite Hne'.
Qed.

End ReverseRecords.

(** Bob cannot clear his reverse record from alice's client; alice can
    clear hers, with one [setName("")]. *)
Lemma setup_name_clears_runs :
  setup_name (C := TestChain2.collab2) TestChain2.REVERSE_REGISTRAR_DOMAIN ""
    TestChain.bob [] (TestChain2.w0 TestChain2.genesis2)
  = (Raise UnauthorizedError, TestChain2.w0 TestChain2.genesis2) /\
  w_sent (snd (setup_name (C := TestChain2.collab2)
                 TestChain2.REVERSE_REGISTRAR_DOMAIN "" TestChain.alice []
                 (TestChain2.w0 TestChain2.genesis2)))
  = [Sent (Contract ABI_REVERSE_REGISTRAR (PStr TestChain2.reverse_registrar))
       "setName" [PStr ""] [("from", TestChain.alice)]].
Proof.
  split.
  - refine (proj1 (setup_name_clears (C := TestChain2.collab2)
                     TestChain2.REVERSE_REGISTRAR_DOMAIN TestChain.bob []
                     (TestChain2.w0 TestChain2.genesis2)) _).
    reflexivity.
  - refine (proj1 (proj2 (setup_name_clears (C := TestChain2.collab2)
                            TestChain2.REVERSE_REGISTRAR_DOMAIN TestChain.alice []
                            (TestChain2.w0 TestChain2.genesis2))
                     _ "addr.reverse" (PStr TestChain2.reverse_registrar) _ _));
      reflexivity.
Defined.

(** [wallet.eth] resolves to alice, so it cannot be bob's name;
    [nothing.xyz] resolves to nothing and has no owner. *)
Lemma setup_name_rejects_runs :
  setup_name (C := TestChain2.collab2) TestChain2.REVERSE_REGISTRAR_DOMAIN
    "wallet.eth" TestChain.bob [] (TestChain2.w0 TestChain2.genesis2)
  = (Raise AddressMismatch, TestChain2.w0 TestChain2.genesis2) /\
  setup_name (C := TestChain2.collab2) TestChain2.REVERSE_REGISTRAR_DOMAIN
    "nothing.xyz" PNone [] (TestChain2.w0 TestChain2.genesis2)
  = (Raise UnownedName, TestChain2.w0 TestChain2.genesis2).
Proof.
  split.
  - refine (proj1 (setup_name_rejects (C := TestChain2.collab2)
                     TestChain2.REVERSE_REGISTRAR_DOMAIN "wallet.eth" TestChain.bob
                     [] (TestChain2.w0 TestChain2.genesis2) TestChain.alice _ _)
              _ _ _); try reflexivity.
    discriminate.
  - refine (proj2 (setup_name_rejects (C := TestChain2.collab2)
                     TestChain2.REVERSE_REGISTRAR_DOMAIN "nothing.xyz" PNone
                     [] (TestChain2.w0 TestChain2.genesis2) PNone _ _)
              _ _ TestChain.zero _ _); try reflexivity.
    discriminate.
Defined.

(** [wallet.eth] resolves to alice: setting it up as her name takes the
    one [setName]. *)
Lemma setup_name_of_resolved_runs :
  w_sent (snd (setup_name (C := TestChain2.collab2)
                 TestChain2.REVERSE_REGISTRAR_DOMAIN "wallet.eth" PNone []
                 (TestChain2.w0 TestChain2.genesis2)))
  = [Sent (Contract ABI_REVERSE_REGISTRAR (PStr TestChain2.reverse_registrar))
       "setName" [PStr "wallet.eth"] [("from", TestChain.alice)]].
Proof.
  refine (proj1 (setup_name_of_resolved (C := TestChain2.collab2)
                   TestChain2.REVERSE_REGISTRAR_DOMAIN "wallet.eth" PNone []
                   (TestChain2.w0 TestChain2.genesis2)
                   "0xA11ce00000000000000000000000000000000001" "wallet.eth"
                   "addr.reverse" (PStr TestChain2.reverse_registrar)
                   _ _ _ _ _ _ _ _ _ _)); try reflexivity.
  - discriminate.
  - left. reflexivity.
Defined.

Section TextRecords.
Context {C : Collab}.

(** [set_text] up to the capability test. *)
Lemma set_text_located (nm key value : string) (params : txparams)
    (w : world C) o node nn r :
  fst (owner nm w) = Ok o ->
  raw_name_to_hash C nm = Ok node ->
  normalize_name C nm = Ok nn ->
  fst (resolver nn w) = Ok r ->
  set_text nm key value params w =
  match r with
  | Some r =>
      bind (_resolver_supports_interface r (GET_TEXT_INTERFACE_ID C))
        (fun sup =>
           if truthy sup
           then transact r "setText" [PBytes node; PStr key; PStr value]
                  (merge [("from", o)] params)
           else raise UnsupportedFunction) w
  | None => (Raise ResolverNotFound, w)
  end.
Proof.
  intros Ho Hh Hn Hr. unfold set_text.
  rewrite (bind_ok _ _ _ _ _ (read_only_run _ _ _ (read_only_owner nm) Ho)).
  rewrite (bind_lift_ok _ _ _ _ Hh), (bind_lift_ok _ _ _ _ Hn). cbv zeta.
  rewrite (bind_ok _ _ _ _ _ (read_only_run _ _ _ (read_only_resolver nn) Hr)).
  destruct r; reflexivity.
Qed.

(** X16. [set_text] on a name whose resolver supports text records
    submits one [setText(node, key, value)] to that resolver. The
    transaction is sent from the sender the caller named in [transact],
    and from the name's owner when the caller named none; every other
    entry of [transact] is passed on unchanged. Without a resolver it
    raises [ResolverNotFound], with a resolver that lacks text records
    [UnsupportedFunction], and submits nothing. *)
Theorem set_text_spec (nm key value : string) (params : txparams)
    (w : world C) o node nn :
  fst (owner nm w) = Ok o ->
  raw_name_to_hash C nm = Ok node ->
  normalize_name C nm = Ok nn ->
  NoDup (map fst params) ->
  (fst (resolver nn w) = Ok None ->
   set_text nm key value params w = (Raise ResolverNotFound, w)) /\
  (forall r sup,
      fst (resolver nn w) = Ok (Some r) ->
      fst (_resolver_supports_interface r (GET_TEXT_INTERFACE_ID C) w) = Ok sup ->
      (truthy sup = false ->
       set_text nm key value params w = (Raise UnsupportedFunction, w)) /\
      (truthy sup = true ->
       exists sent,
         w_sent (snd (set_text nm key value params w)) = (w_sent w ++ [sent])%list /\
         tx_to sent = r /\
         tx_fn sent = "setText" /\
         tx_args sent = [PBytes node; PStr key; PStr value] /\
         get_item (tx_params sent) "from"
         = Some (match get_item params "from" with Some f => f | None => o end) /\
         forall k, k <> "from" -> get_item (tx_params sent) k = get_item params k)).
Proof.
  intros Ho Hh Hn Hnd. split.
  - intros Hr. now rewrite (set_text_located _ _ _ _ _ _ _ _ _ Ho Hh Hn Hr).
  - intros r sup Hr Hs.
    rewrite (set_text_located _ _ _ _ _ _ _ _ _ Ho Hh Hn Hr).
    rewrite (bind_ok _ _ _ _ _ (read_only_run _ _ _ (read_only_supports _ _) Hs)).
    split; intros ->.
    + reflexivity.
    + exists (Sent r "setText" [PBytes node; PStr key; PStr value]
                (merge [("from", o)] params)).
      split; [apply transact_sent|]. repeat split.
      * cbn [tx_params]. rewrite merge_get by exact Hnd.
        destruct (get_item params "from"); reflexivity.
      * intros k Hk. cbn [tx_params]. rewrite merge_get by exact Hnd.
        destruct (get_item params k); [reflexivity|].
        cbn [get_item].
        assert (E : String.eqb "from" k = false)
          by (apply String.eqb_neq; congruence).
        now rewrite E.
Qed.

End TextRecords.

(** Bob pays for a text record of alice's [wallet.eth]: the transaction
    goes out from bob, with his gas setting. *)
Lemma set_text_spec_runs :
  exists sent,
    w_sent (snd (set_text (C := TestChain2.collab2) "wallet.eth" "url" "x"
                   [("from", TestChain.bob); ("gas", PStr "1")]
                   (TestChain2.w0 TestChain2.genesis2)))
    = (w_sent (TestChain2.w0 TestChain2.genesis2) ++ [sent])%list /\
    tx_to sent = Contract ABI_RESOLVER (PStr TestChain.public_resolver) /\
    tx_fn sent = "setText" /\
    tx_args sent = [PBytes "wallet.eth"; PStr "url"; PStr "x"] /\
    get_item (tx_params sent) "from" = Some TestChain.bob /\
    forall k, k <> "from" ->
      get_item (tx_params sent) k
      = get_item [("from", TestChain.bob); ("gas", PStr "1")] k.
Proof.
  refine (proj2 (proj2 (set_text_spec (C := TestChain2.collab2) "wallet.eth" "url" "x"
                          [("from", TestChain.bob); ("gas", PStr "1")]
                          (TestChain2.w0 TestChain2.genesis2)
                          TestChain.alice "wallet.eth" "wallet.eth" _ _ _ _)
                   (Contract ABI_RESOLVER (PStr TestChain.public_resolver))
                   (PBool true) _ _) _); try reflexivity.
  repeat constructor; simpl; intuition discriminate.
Defined.

(* ===================================================================== *)
(** * The mungers of [BaseEth] and [Eth] *)
(* ===================================================================== *)

Module EthFacts.
Import EthModule.

Section Mungers.
Context {C : Collab}.
Variable B : Type.
Variable O : Type.

Lemma with_default_from_other (self : eth B) (tx : txparams) k :
  k <> "from" -> get_item (with_default_from B self tx) k = get_item tx k.
Proof.
  intros Hk. unfold with_default_from.
  destruct (negb (has_key tx "from") && has_default_account B self); [|reflexivity].
  destruct (default_account B self); [|reflexivity].
  now apply get_set_item_other.
Qed.

(** X17. The three transaction mungers hand the same transaction to the
    RPC method. It is the caller's transaction, except that a missing
    ['from'] is filled in with the default account when that is a
    checksum address; a ['from'] the caller gave is never replaced and
    no other key is touched. [call_munger] always adds a block
    identifier, the default one if none is given, and the state override
    only if given; [estimate_gas_munger] adds the block identifier only
    if given. *)
Theorem mungers_spec (self : eth B) (tx : txparams)
    (block_identifier : option B) (state_override : option O) :
  exists tx',
    send_transaction_munger B O self tx = [ParamTx tx'] /\
    estimate_gas_munger B O self tx block_identifier
    = ParamTx tx' ::
      match block_identifier with Some b => [ParamBlock b] | None => [] end /\
    call_munger B O self tx block_identifier state_override
    = ParamTx tx' ::
      ParamBlock (match block_identifier with
                  | Some b => b
                  | None => default_block B self
                  end) ::
      match state_override with Some o => [ParamOverride o] | None => [] end /\
    (forall k, k <> "from" -> get_item tx' k = get_item tx k) /\
    (forall f, get_item tx "from" = Some f -> tx' = tx) /\
    (get_item tx "from" = None ->
     forall a,
       default_account B self = Some a ->
       is_checksum_address C a = true ->
       get_item tx' "from" = Some a) /\
    (has_default_account B self = false -> tx' = tx).
Proof.
  exists (with_default_from B self tx).
  split; [reflexivity|].
  split; [unfold estimate_gas_munger; now destruct block_identifier|].
  split.
  { unfold call_munger. now destruct block_identifier, state_override. }
  split; [intros k; apply with_default_from_other|].
  unfold with_default_from, has_key, has_default_account.
  split; [|split].
  - intros f ->. reflexivity.
  - intros -> a -> ->. cbn [negb andb]. apply get_set_item_same.
  - intros ->. now rewrite andb_false_r.
Qed.

End Mungers.


End EthFacts.

(* ===================================================================== *)
(** * How long the wait for a receipt takes *)
(* ===================================================================== *)

Module ReceiptTiming.
Import Receipt.
Section Wait.

Local Open Scope Z_scope.

Variable receipt : Type.
Variable get : Z -> outcome (option receipt).
Variable rpc_time : Z.

Lemma wait_clock fuel timeout poll_latency now :
  snd (wait_for_transaction_receipt receipt get rpc_time fuel timeout poll_latency now)
  = snd (poll_loop receipt get rpc_time fuel (MkTimeout timeout now) poll_latency now).
Proof.
  unfold wait_for_transaction_receipt.
  destruct (poll_loop receipt get rpc_time fuel (MkTimeout timeout now)
              poll_latency now) as [[r|e|] t]; try reflexivity.
  destruct e; reflexivity.
Qed.

Lemma poll_loop_clock timeout poll_latency now fuel :
  0 <= rpc_time -> 0 <= poll_latency ->
  forall k : nat,
    Z.of_nat k * (rpc_time + poll_latency) <= timeout ->
    timeout < Z.of_nat (k + fuel) * (rpc_time + poll_latency) ->
    let t' := snd (poll_loop receipt get rpc_time fuel (MkTimeout timeout now)
                     poll_latency (poll_time rpc_time poll_latency now k)) in
    poll_time rpc_time poll_latency now k + rpc_time <= t' /\
    t' <= now + timeout + rpc_time + poll_latency.
Proof.
  intros Hr Hp. induction fuel as [|fuel IH]; intros k Hk Hf.
  - replace (k + 0)%nat with k in Hf by lia. lia.
  - cbv zeta. cbn [poll_loop].
    assert (Hret : poll_time rpc_time poll_latency now k + rpc_time
                   <= now + timeout + rpc_time + poll_latency)
      by (unfold poll_time; lia).
    assert (Hsleep :
      let t' := snd (match timeout_sleep (MkTimeout timeout now) poll_latency
                             (poll_time rpc_time poll_latency now k + rpc_time) with
                     | (Ok _, t) =>
                         poll_loop receipt get rpc_time fuel (MkTimeout timeout now)
                           poll_latency t
                     | (Raise e, t) => (Raise e, t)
                     | (OutOfFuel, t) => (OutOfFuel, t)
                     end) in
      poll_time rpc_time poll_latency now k + rpc_time <= t' /\
      t' <= now + timeout + rpc_time + poll_latency).
    { cbv zeta. unfold timeout_sleep, expired. cbn [seconds begun_at].
      rewrite <- (Z.add_assoc (poll_time rpc_time poll_latency now k)).
      replace (poll_time rpc_time poll_latency now k + (rpc_time + poll_latency))
        with (poll_time rpc_time poll_latency now (S k))
        by (unfold poll_time; lia).
      destruct (Z.gtb_spec (poll_time rpc_time poll_latency now (S k))
                           (now + timeout)) as [Hx|Hx].
      - cbn [snd]. unfold poll_time in *. lia.
      - destruct (IH (S k)) as [L U].
        + unfold poll_time in Hx. lia.
        + replace (S k + fuel)%nat with (k + S fuel)%nat by lia. exact Hf.
        + split; [|exact U]. unfold poll_time in *. lia. }
    unfold fetch_receipt.
    destruct (get (poll_time rpc_time poll_latency now k)) as [[r|]|e|].
    + cbn [snd]. lia.
    + exact Hsleep.
    + destruct e; try (cbn [snd]; lia). exact Hsleep.
    + cbn [snd]. lia.
Qed.

(** X19. The wait is bounded by the timeout. On the clock of the model,
    where a fetch takes a fixed time and a sleep the poll interval, and
    with enough unrolling to reach the deadline, the wait ends, with a
    receipt or an exception, no earlier than one fetch after it began
    and no later than one fetch and one poll interval after the
    deadline. A receipt that the first fetch finds is returned after
    that fetch, without a sleep, whatever the timeout. *)
Theorem wait_is_bounded (timeout poll_latency now : Z) (fuel : nat) :
  0 <= rpc_time ->
  0 <= poll_latency ->
  0 <= timeout ->
  timeout < Z.of_nat fuel * (rpc_time + poll_latency) ->
  let run :=
    wait_for_transaction_receipt receipt get rpc_time fuel timeout poll_latency now in
  now + rpc_time <= snd run /\
  snd run <= now + timeout + rpc_time + poll_latency /\
  (forall r, get now = Ok (Some r) -> run = (Ok r, now + rpc_time)).
Proof.
  intros Hr Hp Ht Hf run. subst run. rewrite wait_clock.
  pose proof (poll_loop_clock timeout poll_latency now fuel Hr Hp 0%nat) as H.
  replace (poll_time rpc_time poll_latency now 0) with now in H
    by (unfold poll_time; lia).
  destruct H as [L U]; [lia|exact Hf|].
  split; [exact L|]. split; [exact U|].
  intros r Hg. destruct fuel as [|fuel]; [simpl in Hf; lia|].
  unfold wait_for_transaction_receipt. cbn [poll_loop]. unfold fetch_receipt.
  rewrite Hg. reflexivity.
Qed.

End Wait.
End ReceiptTiming.

(** The transaction mined at tick 25, polled every 10 ticks with fetches
    of 1 tick and a timeout of 120 ticks, from tick 0. *)
Lemma wait_is_bounded_runs :
  let run := Receipt.wait_for_transaction_receipt nat (Receipt.mined_at 25 7)
               1 12 120 10 0 in
  (0 + 1 <= snd run)%Z /\
  (snd run <= 0 + 120 + 1 + 10)%Z /\
  (forall r, Receipt.mined_at 25 7 0 = Ok (Some r) -> run = (Ok r, (0 + 1)%Z)).
Proof.
  refine (ReceiptTiming.wait_is_bounded nat (Receipt.mined_at 25 7) 1 120 10 0 12
            _ _ _ _); lia.
Defined.

(* ===================================================================== *)
(** * The candidates of the walk are the suffixes of the name *)
(* ===================================================================== *)

Lemma ancestors_suffixes (n : nat) :
  forall nm,
    String.length nm <= n ->
    List.length (ancestors nm) <= List.length (labels_of nm) /\
    forall i c,
      nth_error (ancestors nm) i = Some c ->
      labels_of c = skipn i (labels_of nm) /\
      c = PyStr.join "." (skipn i (labels_of nm)).
Proof.
  induction n as [|n IH]; intros nm Hn.
  - assert (nm = "") as -> by (apply length_zero_empty; lia).
    split; [simpl; lia|]. intros [|i] c H; discriminate.
  - destruct (String.eqb_spec nm "") as [->|Hne].
    { split; [simpl; lia|]. intros [|i] c H; discriminate. }
    rewrite (ancestors_cons _ Hne).
    pose proof (parent_shorter nm Hne) as Hs.
    destruct (IH (parent nm) ltac:(lia)) as [Hlen Hnth].
    pose proof (labels_of_parent nm) as Hp.
    pose proof (PyStrFacts.split_nonempty PyStr.dot nm) as Hnil.
    pose proof (PyStrFacts.join_split PyStr.dot nm) as J.
    fold (labels_of nm) in Hnil, J.
    change (String PyStr.dot "") with "." in J.
    destruct (labels_of nm) as [|l t] eqn:L; [congruence|].
    simpl tl in Hp.
    destruct t as [|l' t'].
    + (* one label: the parent is the empty name *)
      assert (parent nm = "") as E.
      { rewrite parent_is_tail, L. reflexivity. }
      rewrite E in *. split; [simpl; lia|].
      intros [|i] c H.
      * injection H as <-. cbn [skipn]. split; [exact L|now symmetry].
      * destruct i; discriminate.
    + rewrite Hp in Hlen, Hnth. split; [simpl in *; lia|].
      intros [|i] c H.
      * injection H as <-. cbn [skipn]. split; [exact L|now symmetry].
      * simpl in H. apply Hnth in H. exact H.
Qed.

(** X20. The candidates the resolver walk visits are the dotted
    suffixes of the name, nearest first: the [i]-th candidate is the
    name without its first [i] labels. So the walk reads the registry
    for at most as many names as the name has labels. *)
Theorem walk_candidates (nm : string) :
  List.length (ancestors nm) <= List.length (labels_of nm) /\
  forall i c,
    nth_error (ancestors nm) i = Some c ->
    labels_of c = skipn i (labels_of nm) /\
    c = PyStr.join "." (skipn i (labels_of nm)).
Proof. apply (ancestors_suffixes (String.length nm)). lia. Qed.
